(** * A shallow embedding of the SCCM data-completeness checkers

    Two Python 2 scripts are modelled here:
    - [csr_checker.py] (day granularity): for every job and every satellite
      directory, checks that the CSR file of a day exists and copies it to
      the collectors' log directory;
    - [findMissingCSR.py] (hour granularity): for every MCS provider, reads
      the CSR file of a day and checks its hour buckets and metadata fields.

    Both scripts keep their errors in a module-level list together with a
    boolean flag; uncaught exceptions end the Python process with status 1
    and no notification.  The filesystem is an environment of oracles for
    what the scripts only read, and explicit state for what they write
    (the destination directories and files of the copier). *)

From Stdlib Require Import ZArith List String Ascii Bool Lia.
Import ListNotations.
Open Scope string_scope.
Open Scope Z_scope.

(** ** Strings *)

Definition nl : string := String (ascii_of_nat 10) EmptyString.

(** [os.path.join] of a directory and a relative component. *)
Definition join (a b : string) : string := a ++ "/" ++ b.

Definition digit (n : nat) : ascii := ascii_of_nat (48 + n).

(** Zero-padded decimal rendering on [width] digits ([%Y], [%m], [%d],
    [%H] of strftime, for values that fit the width). *)
Fixpoint pad (width : nat) (n : nat) : string :=
  match width with
  | O => EmptyString
  | S w => pad w (Nat.div n 10) ++ String (digit (Nat.modulo n 10)) EmptyString
  end.

Definition padZ (width : nat) (z : Z) : string := pad width (Z.to_nat z).

(** [str.endswith]. *)
Definition ends_with (suf s : string) : bool :=
  (String.length suf <=? String.length s)%nat &&
  String.eqb (substring (String.length s - String.length suf)
                        (String.length suf) s) suf.

(** Python's substring test [sub in s]. *)
Fixpoint contains (sub s : string) : bool :=
  prefix sub s ||
  match s with
  | EmptyString => false
  | String _ s' => contains sub s'
  end.

(** List membership [x in l] on strings. *)
Definition str_in (x : string) (l : list string) : bool :=
  existsb (String.eqb x) l.

Definition is_nil {A} (l : list A) : bool :=
  match l with [] => true | _ => false end.

(** ["\n".join(l)]. *)
Fixpoint join_lines (l : list string) : string :=
  match l with
  | [] => EmptyString
  | [x] => x
  | x :: r => x ++ nl ++ join_lines r
  end.

(** ** Calendar ([datetime] and [calendar] modules) *)

Definition is_leap (y : Z) : bool :=
  (Z.eqb (y mod 4) 0 && negb (Z.eqb (y mod 100) 0)) || Z.eqb (y mod 400) 0.

(** The number of days of the month [m] of the year [y]. *)
Definition days_in_month (y m : Z) : Z :=
  if Z.eqb m 2 then (if is_leap y then 29 else 28)
  else if existsb (Z.eqb m) [4; 6; 9; 11] then 30
  else 31.

(** Whether [datetime.datetime(year=y, month=m, day=d)] (and
    [datetime.date]) accepts its arguments; [MINYEAR = 1], [MAXYEAR = 9999]. *)
Definition datetime_valid (y m d : Z) : bool :=
  (1 <=? y) && (y <=? 9999) && (1 <=? m) && (m <=? 12) &&
  (1 <=? d) && (d <=? days_in_month y m).

(** A (proleptic) Gregorian calendar date, with no bound on the year. *)
Definition gregorian_valid (y m d : Z) : bool :=
  (1 <=? m) && (m <=? 12) && (1 <=? d) && (d <=? days_in_month y m).

Record date := mkDate { dy : Z; dm : Z; dd : Z }.

(** [d - datetime.timedelta(days=1)] for a valid date [d]. *)
Definition date_pred (t : date) : date :=
  if 1 <? dd t then mkDate (dy t) (dm t) (dd t - 1)
  else if 1 <? dm t then mkDate (dy t) (dm t - 1) (days_in_month (dy t) (dm t - 1))
  else mkDate (dy t - 1) 12 31.

(** [today.replace(day=1) - datetime.timedelta(days=1)]. *)
Definition last_month (today : date) : date :=
  date_pred (mkDate (dy today) (dm today) 1).

(** [strftime("%Y%m%d")]. *)
Definition fmt_date (y m d : Z) : string := padZ 4 y ++ padZ 2 m ++ padZ 2 d.

(** ** Python exceptions and the run monad *)

Inductive py_exc :=
| IOError (msg : string)
| OSError (msg : string)
| NameError (msg : string)
| ValueError (msg : string)
| IndexError (msg : string)
| UnboundLocalError (msg : string)
| AttributeError (msg : string).

Definition exc_text (e : py_exc) : string :=
  match e with
  | IOError m | OSError m | NameError m | ValueError m | IndexError m
  | UnboundLocalError m | AttributeError m => m
  end.

Inductive res (A : Type) := Ret (a : A) | Raise (e : py_exc).
Arguments Ret {A} a.
Arguments Raise {A} e.

(** What both scripts raise when they try to notify: [emailer.py] defines
    [send_email] but no [build_email], so the attribute lookup
    [emailer.build_email] fails and nothing is sent. *)
Definition build_email_error : py_exc :=
  AttributeError "'module' object has no attribute 'build_email'".

(** Decimal digits of a non-negative integer, [fuel] bounding their count. *)
Fixpoint decimal_digits (fuel : nat) (z : Z) : string :=
  match fuel with
  | O => EmptyString
  | S f => (if z <? 10 then EmptyString else decimal_digits f (z / 10)) ++
           String (ascii_of_nat (48 + Z.to_nat (z mod 10))) EmptyString
  end.

(** [str(z)] (and [%ld]) for an integer. *)
Definition decZ (z : Z) : string :=
  (if z <? 0 then "-" else EmptyString) ++
  decimal_digits (S (Z.to_nat (Z.log2 (Z.abs z)))) (Z.abs z).

(** The [ValueError] of [datetime.date(y, m, d)] (and [datetime.datetime])
    for arguments it refuses, checked in this order. *)
Definition date_error (y m d : Z) : py_exc :=
  if negb ((1 <=? y) && (y <=? 9999)) then ValueError "year is out of range"
  else if negb ((1 <=? m) && (m <=? 12)) then ValueError "month must be in 1..12"
  else ValueError "day is out of range for month".

(** Python 2's [strftime] refuses the dates before 1900. *)
Definition strftime_error (y : Z) : py_exc :=
  ValueError ("year=" ++ decZ y ++
              " is before 1900; the datetime strftime() methods require year >= 1900").

(** [calendar.monthrange(y, m)[1]]: a month outside 1..12 raises
    [IllegalMonthError] (a [ValueError]); the weekday of the first day
    is computed with [datetime.date(y, m, 1)], which refuses a year
    outside [MINYEAR..MAXYEAR]. *)
Definition monthrange_days (y m : Z) : res Z :=
  if negb ((1 <=? m) && (m <=? 12))
  then Raise (ValueError ("bad month number " ++ decZ m ++ "; must be 1-12"))
  else if negb ((1 <=? y) && (y <=? 9999)) then Raise (ValueError "year is out of range")
  else Ret (days_in_month y m).

(** The process-wide state of a run: the error list and flag of the
    script, the destination tree the copier writes (its directories and
    its files, keyed by directory and file name, with whether the file's
    mode lets its owner write it), and the log of attempted copies. *)
Record st := mkSt {
  errs : list string;
  found : bool;
  dirs : list string;
  files : list ((string * string) * bool);
  copies : list string
}.

Definition M (A : Type) := st -> res A * st.

Definition ret {A} (a : A) : M A := fun s => (Ret a, s).
Definition raise {A} (e : py_exc) : M A := fun s => (Raise e, s).
Definition bind {A B} (c : M A) (k : A -> M B) : M B :=
  fun s => match c s with
           | (Ret a, s') => k a s'
           | (Raise e, s') => (Raise e, s')
           end.
(** [try: c except ...: h] : the handler decides, per exception, whether
    it catches it (it re-raises what it does not catch). *)
Definition catch {A} (c : M A) (h : py_exc -> M A) : M A :=
  fun s => match c s with
           | (Ret a, s') => (Ret a, s')
           | (Raise e, s') => h e s'
           end.

Notation "x <- c1 ;; c2" := (bind c1 (fun x => c2))
  (at level 61, c1 at next level, right associativity).
Notation "c1 ;; c2" := (bind c1 (fun _ => c2)) (at level 61, right associativity).

Fixpoint for_each {A} (l : list A) (f : A -> M unit) : M unit :=
  match l with
  | [] => ret tt
  | x :: r => f x ;; for_each r f
  end.

(** [error_message.append(e); error_found = True] (csr_checker) and
    [handle_error(e)] (findMissingCSR). *)
Definition handle_error (e : string) : M unit :=
  fun s => (Ret tt, mkSt (errs s ++ [e]) true (dirs s) (files s) (copies s)).

(** [errors.append(e)] without setting the flag. *)
Definition append_error (e : string) : M unit :=
  fun s => (Ret tt, mkSt (errs s ++ [e]) (found s) (dirs s) (files s) (copies s)).

Definition st0 (ds : list string) (fs : list ((string * string) * bool)) : st :=
  mkSt [] false ds fs [].

(** The outcome of a process: the bodies handed to [emailer.build_email],
    the exit status, the errors recorded (also those lost in an aborted
    run) and the destination tree left behind. *)
Record outcome := mkOutcome {
  sent : list string;
  code : Z;
  recorded : list string;
  final : st
}.

(** ** csr_checker.py : the day-granularity checker *)

Module Csr.

Definition CSR_path : string := "/home/ftpuser/upload".
Definition dest_path : string := "/opt/ibm/sccm/samples/logs/collectors".

Definition job_names : list string :=
  ["consolidation_backups"; "consolidation_cinder_volume";
   "consolidation_nova_compute"].

(** What the checker reads of the filesystem, unchanged by a run.
    - [job_exists p]: [os.path.exists(p)] for a job root;
    - [walk_dirs p]: the [dir_names] that [os.walk(p)] yields, directory
      after directory, concatenated;
    - [src_file p]: [None] when [os.path.isfile(p)] is false, [Some w] for
      a regular file whose mode lets its owner write it when [w] is true;
    - [src_readable p]: whether [open(p, 'rb')] succeeds on that file;
    - [mkdir_ok d]: whether [os.mkdir(d, 0755)] succeeds once the parent of
      [d] exists;
    - [dir_writable d]: [os.access(d, os.W_OK)];
    - [copy_fault d f]: a fault of the copy of file [f] into [d] that has
      nothing to do with permissions (disk full, I/O error, a failing
      [copystat]); a faulted copy leaves the destination as it was. *)
Record env := mkEnv {
  job_exists : string -> bool;
  walk_dirs : string -> list string;
  src_file : string -> option bool;
  src_readable : string -> bool;
  mkdir_ok : string -> bool;
  dir_writable : string -> bool;
  copy_fault : string -> string -> option py_exc
}.

Definition key_eqb (a b : string * string) : bool :=
  String.eqb (fst a) (fst b) && String.eqb (snd a) (snd b).

Definition lookup_file (k : string * string) (l : list ((string * string) * bool))
  : option bool :=
  match find (fun p => key_eqb (fst p) k) l with
  | Some (_, w) => Some w
  | None => None
  end.

Definition set_file (k : string * string) (w : bool)
  (l : list ((string * string) * bool)) : list ((string * string) * bool) :=
  (k, w) :: filter (fun p => negb (key_eqb (fst p) k)) l.

(** [os.path.isdir(d)] on the destination tree. *)
Definition is_dir (d : string) : M bool := fun s => (Ret (str_in d (dirs s)), s).

(** The heads [os.path.split] finds going up from a path: the prefixes of
    [s] (after [pre]) that end just before one of its ["/"], the root
    apart, from the top down.  The destination paths have no repeated and
    no trailing ["/"]. *)
Fixpoint heads_from (pre s : string) : list string :=
  match s with
  | EmptyString => []
  | String c r =>
      if Ascii.eqb c "/"%char
      then (if String.eqb pre EmptyString then [] else [pre]) ++
           heads_from (pre ++ String c EmptyString) r
      else heads_from (pre ++ String c EmptyString) r
  end.

Definition path_heads (d : string) : list string := heads_from EmptyString d.

(** [os.path.exists(p)] on the destination tree. *)
Definition path_exists (p : string) : M bool := fun s => (Ret (str_in p (dirs s)), s).

(** [os.mkdir(p, 0755)]. *)
Definition mkdir (E : env) (p : string) : M unit :=
  fun s =>
    if mkdir_ok E p
    then (Ret tt, mkSt (errs s) (found s) (p :: dirs s) (files s) (copies s))
    else (Raise (OSError ("[Errno 13] Permission denied: '" ++ p ++ "'")), s).

(** The recursion of [os.makedirs(name, 0755)], [hs] being the heads of
    [name] nearest first: [head, tail = os.path.split(name)]; if [head]
    does not exist, [makedirs(head)]; then [mkdir(name)].  Its handler
    [except OSError as e: if e.errno != errno.EEXIST: raise] re-raises
    here: a directory it makes was just found missing. *)
Fixpoint makedirs_rec (E : env) (hs : list string) (name : string) : M unit :=
  match hs with
  | [] => mkdir E name
  | h :: r =>
      ex <- path_exists h ;;
      (if ex then ret tt else makedirs_rec E r h) ;;
      mkdir E name
  end.

(** [os.makedirs(d, 0755)]. *)
Definition makedirs (E : env) (d : string) : M unit :=
  makedirs_rec E (rev (path_heads d)) d.

(** [shutil.copy2(src, d)] into the existing directory [d], [f] being
    [os.path.basename(src)]: [copyfile] opens the source for reading
    (refused when it is missing or unreadable), then the destination file
    for writing (refused when it exists read-only, or does not exist in a
    directory that cannot be written), then its data and its mode are
    copied. *)
Definition copy2 (E : env) (src d f : string) : M unit :=
  fun s =>
    let s1 := mkSt (errs s) (found s) (dirs s) (files s) (copies s ++ [join d f]) in
    let denied := IOError ("[Errno 13] Permission denied: '" ++ join d f ++ "'") in
    let write w :=
      match copy_fault E d f with
      | Some e => (Raise e, s1)
      | None => (Ret tt, mkSt (errs s) (found s) (dirs s)
                              (set_file (d, f) w (files s)) (copies s1))
      end in
    match src_file E src with
    | None =>
        (Raise (IOError ("[Errno 2] No such file or directory: '" ++ src ++ "'")), s1)
    | Some w =>
        if negb (src_readable E src)
        then (Raise (IOError ("[Errno 13] Permission denied: '" ++ src ++ "'")), s1) else
        match lookup_file (d, f) (files s) with
        | Some false => (Raise denied, s1)
        | Some true => write w
        | None => if dir_writable E d then write w else (Raise denied, s1)
        end
    end.

(** [if not os.path.isdir(dest_dir): try: os.makedirs(...)].  The
    handler is [except e as exception:]; evaluating the undefined name [e]
    raises [NameError]. *)
Definition ensure_dir (E : env) (dest_dir : string) : M unit :=
  isd <- is_dir dest_dir ;;
  if isd then ret tt
  else catch (makedirs E dest_dir)
         (fun _ => raise (NameError "global name 'e' is not defined")).

(** The [os.access] check and the guarded [copy2]. *)
Definition write_copy (E : env) (full dest_dir filename : string) : M unit :=
  (if dir_writable E dest_dir then ret tt
   else handle_error ("Unable to write to " ++ dest_dir)) ;;
  catch (copy2 E full dest_dir filename)
    (fun e => match e with
              | IOError m => handle_error ("Unable to copy file. " ++ m ++ nl)
              | _ => raise e
              end).

(** The [else] branch of [check_day]: the CSR file is present. *)
Definition copy_artifact (E : env) (full dest_dir filename : string) : M unit :=
  ensure_dir E dest_dir ;; write_copy E full dest_dir filename.

(** The body of [for sub_dir_name in dir_names]: the file name comes from
    [datetime.date(y, m, d).strftime("%Y%m%d")]. *)
Definition check_sub_dir (E : env) (y m d : Z) (job_name sub : string) : M unit :=
  if negb (datetime_valid y m d) then raise (date_error y m d)
  else if y <? 1900 then raise (strftime_error y)
  else
    let filename := fmt_date y m d ++ ".txt" in
    let full := join (join (join CSR_path job_name) sub) filename in
    let dest_dir := join (join dest_path job_name) sub in
    match src_file E full with
    | None => handle_error ("File not found: " ++ full)
    | Some _ => copy_artifact E full dest_dir filename
    end.

Definition missing_job_msg (job_path : string) : string :=
  "The path " ++ job_path ++ " does not exist." ++ nl.

(** The body of [for job_name in [...]]. *)
Definition check_job (E : env) (y m d : Z) (job_name : string) : M unit :=
  let job_path := join CSR_path job_name in
  if job_exists E job_path
  then for_each (walk_dirs E job_path) (check_sub_dir E y m d job_name)
  else handle_error (missing_job_msg job_path).

Definition check_day (E : env) (y m d : Z) : M unit :=
  for_each job_names (check_job E y m d).

(** The year, month and number of days [check_month] loops over, or the
    exception of [calendar.monthrange]. *)
Definition month_plan (today : date) (curmon : bool) (year month : Z) : res (Z * Z * Z) :=
  if curmon then
    let dom := dd (date_pred today) in
    if Z.eqb (dd today) 1
    then let lm := last_month today in Ret (dy lm, dm lm, dom)
    else Ret (year, month, dom)
  else match monthrange_days year month with
       | Ret n => Ret (year, month, n)
       | Raise e => Raise e
       end.

(** [day = 1; while day <= n: ...; day += 1]. *)
Definition days_upto (n : Z) : list Z := map Z.of_nat (seq 1 (Z.to_nat n)).

Definition check_month (E : env) (today : date) (curmon : bool) (year month : Z)
  : M unit :=
  match month_plan today curmon year month with
  | Ret (y, m, dom) => for_each (days_upto dom) (fun day => check_day E y m day)
  | Raise e => raise e
  end.

Inductive month_arg := MM (m : Z) | PREMON | CURMON.

Record args := mkArgs { a_year : option Z; a_month : month_arg; a_day : option Z }.

Inductive start := Exit (c : Z) | Main (year : option Z) (month : Z) (day : option Z)
                                       (curmon : bool).

(** [get_args]: argparse's choices (a refused choice exits with status 2),
    then PREMON / CURMON, then the validation of an explicit day. *)
Definition get_args (a : args) (today : date) : start :=
  let month_ok := match a_month a with MM m => (1 <=? m) && (m <=? 12) | _ => true end in
  let day_ok := match a_day a with Some d => (1 <=? d) && (d <=? 31) | None => true end in
  if negb (month_ok && day_ok) then Exit 2 else
  let '(year, month, curmon) :=
    match a_month a with
    | MM m => (a_year a, m, false)
    | PREMON => let lm := last_month today in (Some (dy lm), dm lm, false)
    | CURMON => (Some (dy today), dm today, true)
    end in
  match a_day a with
  | Some d =>
      match year with
      | Some y => if datetime_valid y month d then Main year month (Some d) curmon
                  else Exit 2
      | None => Exit 2
      end
  | None => Main year month None curmon
  end.

(** [main]: [if year and month and day] / [elif year and month and not day]. *)
Definition main (E : env) (today : date) (year : option Z) (month : Z)
  (day : option Z) (curmon : bool) : M unit :=
  match year with
  | Some y =>
      if Z.eqb y 0 then ret tt else
      match day with
      | Some d => check_day E y month d
      | None => check_month E today curmon y month
      end
  | None => ret tt
  end.

(** End of [main]: when [error_found], the errors are joined and
    [emailer.build_email] is looked up, which raises [build_email_error]
    before any email is built, so [exit(1)] is never reached; an uncaught
    exception ends the process with status 1. *)
Definition notify : M unit :=
  fun s => if found s then (Raise build_email_error, s) else (Ret tt, s).

Definition finish (r : res unit * st) : outcome :=
  match r with
  | (Raise _, s) => mkOutcome [] 1 (errs s) s
  | (Ret _, s) =>
      match notify s with
      | (Raise _, s') => mkOutcome [] 1 (errs s') s'
      | (Ret _, s') => mkOutcome [] 0 (errs s') s'
      end
  end.

Definition run (E : env) (today : date) (a : args)
  (ds : list string) (fs : list ((string * string) * bool)) : outcome :=
  match get_args a today with
  | Exit c => mkOutcome [] c [] (st0 ds fs)
  | Main y m d cm => finish (main E today y m d cm (st0 ds fs))
  end.

End Csr.

(** ** findMissingCSR.py : the hour-granularity checker *)

Module Mcs.

Definition COLLECTOR_LOGS : string := "/opt/ibm/sccm/samples/logs/collectors".
Definition provider_file : string := "/opt/ibm/sccm/wlp/usr/servers/mcs/data/providers.json".
Definition full_log_file_name (stamp : string) : string :=
  "/tmp/logs/sccm/checkMCS_" ++ stamp ++ ".log".

Definition metadata : list string := ["ActionInProgress"; "NetworkZone"; "TemplateName"].

(** What the checker reads.
    - [providers]: the [provider_name] of every line of [providers.json],
      or the text of the exception raised while reading it;
    - [path_exists], [is_file]: [os.path.exists], [os.path.isfile];
    - [csv_rows p]: the rows [csv.reader] yields for the file [p];
    - [csv_error p]: the text of the exception that stops the reading of
      the regular file [p] once the rows [csv_rows p] are yielded, if any:
      the [IOError] of [open] on a file that cannot be read (no row is
      yielded then), or a [csv.Error] of the reader;
    - [open_error p]: the text of the [IOError] of [open(p, "rb")] when [p]
      is not a regular file;
    - [utc_hour]: the hour of [datetime.utcnow()] (both calls of [main]
      are taken in the same hour). *)
Record env := mkEnv {
  providers : list string + string;
  path_exists : string -> bool;
  is_file : string -> bool;
  csv_rows : string -> list (list string);
  csv_error : string -> option string;
  open_error : string -> string;
  utc_hour : nat
}.

(** [search_metadata(row)]: counts the metadata names found among the
    values of the row. *)
Definition search_metadata (row : list string) : bool :=
  let found_fields :=
    fold_left (fun n field => if str_in field row then S n else n) metadata O in
  Nat.eqb found_fields (List.length metadata).

(** [str(row)] for a row of plain values. *)
Definition row_repr (row : list string) : string :=
  "[" ++ concat ", " (map (fun x => "'" ++ x ++ "'") row) ++ "]".

Definition metadata_msg (row : list string) : string :=
  "Missing metadata field(s) in the following record:" ++ nl ++ row_repr row ++ nl.

Definition read_error_msg (full exc : string) : string :=
  "Error reading CSR input file " ++ full ++ " " ++ nl ++ "Exception: " ++ exc.

(** The [for row in reader] loop inside [try]: [file_hours] is a list
    mutated in place, so what it holds when [row[3]] raises [IndexError]
    survives the [except Exception] handler, which is inlined at the only
    place of the loop that raises. *)
Fixpoint read_rows (full : string) (rows : list (list string)) (file_hours : list string)
  : M (list string) :=
  match rows with
  | [] => ret file_hours
  | row :: rest =>
      match nth_error row 3 with
      | None =>
          handle_error (read_error_msg full "list index out of range") ;;
          ret file_hours
      | Some h =>
          let file_hours' := if str_in h file_hours then file_hours
                             else (file_hours ++ [h])%list in
          (if search_metadata row then ret tt
           else handle_error (metadata_msg row)) ;;
          read_rows full rest file_hours'
      end
  end.

(** [file_hours = []; try: with open(full_input_file, "rb") ...]: a read
    that stops with [csv_error] after the rows (when no record was too
    short) goes to the same [except Exception] handler. *)
Definition read_file (E : env) (full : string) : M (list string) :=
  if is_file E full then
    hours <- read_rows full (csv_rows E full) [] ;;
    if forallb (fun r => Nat.ltb 3 (List.length r)) (csv_rows E full)
    then match csv_error E full with
         | None => ret hours
         | Some e => handle_error (read_error_msg full e) ;; ret hours
         end
    else ret hours
  else handle_error (read_error_msg full (open_error E full)) ;; ret [].

(** [strftime("%H:%M:%S")] of a time truncated to the hour [i]. *)
Definition fmt_hour (i : nat) : string := pad 2 i ++ ":00:00".

(** [for hour in xs: if hour not in l: l.append(hour)]. *)
Fixpoint add_unique (l xs : list string) : list string :=
  match xs with
  | [] => l
  | x :: r => add_unique (if str_in x l then l else (l ++ [x])%list) r
  end.

Definition comparison_hours (all_day up_to_now : bool) (utc_hour : nat) : list string :=
  if all_day then add_unique [] (map fmt_hour (seq 0 24))
  else if up_to_now then add_unique [] (map fmt_hour (seq 0 (utc_hour + 1)))
  else [fmt_hour utc_hour].

Definition missing_msg (hour process feed : string) : string :=
  "Missing MCS entries for " ++ hour ++ " (process: " ++ process ++
  ", feed: " ++ feed ++ ")".

Definition report_missing (process feed : string) (file_hours hours : list string)
  : M unit :=
  for_each hours (fun hour =>
    if str_in hour file_hours then ret tt
    else handle_error (missing_msg hour process feed)).

(** The outcome of the [if/elif/else] on the provider's name: [continue],
    or go on with [process] (unassigned while it is [None]). *)
Inductive cls := Skip | Proc (process : option string).

Definition classify (provider : string) (process : option string) : M cls :=
  if ends_with "_nova" provider then ret (Proc (Some "nova_compute"))
  else if ends_with "_cinder" provider then
    (if contains "VMWARE" provider then ret Skip
     else ret (Proc (Some "cinder_volume")))
  else handle_error ("The provider " ++ provider ++ " is not valid.") ;;
       ret (Proc process).

Definition dir_missing_msg (p : string) : string :=
  "The directory " ++ p ++ " does not exist or is not a valid directory.".
Definition file_missing_msg (p : string) : string :=
  "The file " ++ p ++ " does not exist or is not a valid file.".

(** The body of [for provider in providers], from the name check on; it
    returns the value of the local [process] for the next iteration. *)
Definition check_file (E : env) (full_date : string) (all_day up_to_now : bool)
  (process feed : string) : M unit :=
  let input_file := full_date ++ ".txt" in
  let input_file_path := join (join COLLECTOR_LOGS process) feed in
  let full := join input_file_path input_file in
  (if path_exists E input_file_path then
     (if is_file E full then ret tt else handle_error (file_missing_msg full))
   else handle_error (dir_missing_msg input_file_path)) ;;
  file_hours <- read_file E full ;;
  report_missing process feed file_hours
    (comparison_hours all_day up_to_now (utc_hour E)).

Definition check_provider (E : env) (full_date : string) (all_day up_to_now : bool)
  (process : option string) (provider : string) : M (option string) :=
  c <- classify provider process ;;
  match c with
  | Skip => ret process
  | Proc None =>
      raise (UnboundLocalError "local variable 'process' referenced before assignment")
  | Proc (Some p) =>
      check_file E full_date all_day up_to_now p provider ;; ret (Some p)
  end.

Fixpoint check_providers (E : env) (full_date : string) (all_day up_to_now : bool)
  (process : option string) (ps : list string) : M unit :=
  match ps with
  | [] => ret tt
  | p :: r =>
      process' <- check_provider E full_date all_day up_to_now process p ;;
      check_providers E full_date all_day up_to_now process' r
  end.

Definition header (full_date hostname : string) : string :=
  "The following errors were found while verifying the MCS data for " ++
  full_date ++ " in " ++ hostname ++ ":" ++ nl.

Definition trailer (stamp : string) : string :=
  nl ++ "For more information, refer to the logfile " ++ full_log_file_name stamp ++
  ", (which is attached to this email) or check the actual CSR files in " ++
  COLLECTOR_LOGS ++ "." ++ nl.

Definition get_found : M bool := fun s => (Ret (found s), s).

(** [get_providers()] and the provider loop of [main]. *)
Definition check_all (E : env) (full_date : string) (all_day up_to_now : bool) : M unit :=
  match providers E with
  | inr exc =>
      handle_error ("Error reading providers file " ++ provider_file ++ " " ++ nl ++
                    "Exception: " ++ exc) ;;
      handle_error ("No active MCS providers were found in " ++ provider_file)
  | inl ps => check_providers E full_date all_day up_to_now None ps
  end.

(** [main(full_date, all_day, up_to_now)]: when errors were found, the
    trailer is appended and the errors are joined, then the lookup of
    [emailer.build_email] raises [build_email_error]. *)
Definition main (E : env) (hostname stamp full_date : string) (all_day up_to_now : bool)
  : M unit :=
  append_error (header full_date hostname) ;;
  check_all E full_date all_day up_to_now ;;
  b <- get_found ;;
  if b then
    append_error (trailer stamp) ;;
    raise build_email_error
  else ret tt.

Record args := mkArgs {
  a_year : Z; a_month : Z; a_day : Z; a_all_day : bool; a_up_to_now : bool
}.

(** [get_args]: argparse's choices and mutually exclusive group (status 2),
    then [exit(3)] on a date [datetime] refuses or that [strftime] refuses
    (a year before 1900). *)
Definition get_args (a : args) : Z + (string * bool * bool) :=
  if negb ((1 <=? a_month a) && (a_month a <=? 12) &&
           (1 <=? a_day a) && (a_day a <=? 31) &&
           negb (a_all_day a && a_up_to_now a))
  then inl 2
  else if datetime_valid (a_year a) (a_month a) (a_day a) && (1900 <=? a_year a)
  then inr (fmt_date (a_year a) (a_month a) (a_day a), a_all_day a, a_up_to_now a)
  else inl 3.

(** The module ends with [exit(0)] once [main] returns; an uncaught
    exception ends the process with status 1. *)
Definition finish (r : res unit * st) : outcome :=
  match r with
  | (Raise _, s) => mkOutcome [] 1 (errs s) s
  | (Ret _, s) => mkOutcome [] 0 (errs s) s
  end.

Definition run (E : env) (hostname stamp : string) (a : args) : outcome :=
  match get_args a with
  | inl c => mkOutcome [] c [] (st0 [] [])
  | inr (full_date, all_day, up_to_now) =>
      finish (main E hostname stamp full_date all_day up_to_now (st0 [] []))
  end.

End Mcs.

(** ** The days the spec's CurrentMonth mode checks *)

(** Following the spec's words: from day 1 through yesterday, or the whole
    previous month when today is the 1st. *)
Definition curmon_expected (today : date) : list (Z * Z * Z) :=
  if Z.eqb (dd today) 1 then
    let lm := last_month today in
    map (fun k => (dy lm, dm lm, k)) (Csr.days_upto (days_in_month (dy lm) (dm lm)))
  else map (fun k => (dy today, dm today, k)) (Csr.days_upto (dd today - 1)).

Definition check_dates (E : Csr.env) (l : list (Z * Z * Z)) : M unit :=
  for_each l (fun '(y, m, d) => Csr.check_day E y m d).

(** ** Facts about the run monad *)

Section Preserves.

Variable P : st -> Prop.

Definition preserves {A} (c : M A) : Prop := forall s, P s -> P (snd (c s)).

Lemma preserves_ret {A} (a : A) : preserves (ret a).
Proof. intros s H; exact H. Qed.

Lemma preserves_raise {A} (e : py_exc) : preserves (A := A) (raise e).
Proof. intros s H; exact H. Qed.

Lemma preserves_bind {A B} (c : M A) (k : A -> M B) :
  preserves c -> (forall a, preserves (k a)) -> preserves (bind c k).
Proof.
  intros Hc Hk s Hs. unfold bind.
  specialize (Hc s Hs). destruct (c s) as [[a|e] s']; simpl in *; auto.
  apply Hk; exact Hc.
Qed.

Lemma preserves_catch {A} (c : M A) (h : py_exc -> M A) :
  preserves c -> (forall e, preserves (h e)) -> preserves (catch c h).
Proof.
  intros Hc Hh s Hs. unfold catch.
  specialize (Hc s Hs). destruct (c s) as [[a|e] s']; simpl in *; auto.
  apply Hh; exact Hc.
Qed.

Lemma preserves_for_each {A} (l : list A) (f : A -> M unit) :
  (forall x, preserves (f x)) -> preserves (for_each l f).
Proof.
  intros Hf. induction l as [|x r IH]; simpl.
  - apply preserves_ret.
  - apply preserves_bind; auto.
Qed.

(** When a loop returns normally, the iteration on [x] has run; if that
    iteration establishes [P] and every iteration keeps it, [P] holds at
    the end. *)
Lemma for_each_reaches {A} (f : A -> M unit) (l : list A) (x : A) (s : st) :
  (forall y, preserves (f y)) -> In x l ->
  (forall s', fst (f x s') = Ret tt -> P (snd (f x s'))) ->
  fst (for_each l f s) = Ret tt -> P (snd (for_each l f s)).
Proof.
  intros Hf Hin Hx. revert s. induction l as [|y r IH]; intros s Hret.
  - destruct Hin.
  - simpl in *. unfold bind in *.
    destruct (f y s) as [[[]|e] s'] eqn:Ey; simpl in *; [|discriminate].
    destruct Hin as [<-|Hin].
    + apply (preserves_for_each r f Hf).
      specialize (Hx s). rewrite Ey in Hx. apply Hx. reflexivity.
    + apply IH; assumption.
Qed.

End Preserves.

Create HintDb preserve.
Global Hint Resolve preserves_ret preserves_raise : preserve.

(** A property of the error list and the error flag only. *)
Definition on_ef (Q : list string -> bool -> Prop) (s : st) : Prop := Q (errs s) (found s).

Definition ef_closed (Q : list string -> bool -> Prop) : Prop :=
  forall l b (e : string), Q l b -> Q (l ++ [e])%list true.

Lemma handle_error_preserves Q e : ef_closed Q -> preserves (on_ef Q) (handle_error e).
Proof. intros HQ s Hs. unfold on_ef in *; simpl. exact (HQ _ _ e Hs). Qed.

Lemma is_dir_preserves Q d : preserves (on_ef Q) (Csr.is_dir d).
Proof. intros s Hs. exact Hs. Qed.

Lemma path_exists_preserves Q p : preserves (on_ef Q) (Csr.path_exists p).
Proof. intros s Hs. exact Hs. Qed.

Lemma mkdir_preserves Q E p : preserves (on_ef Q) (Csr.mkdir E p).
Proof. intros s Hs. unfold Csr.mkdir. destruct (Csr.mkdir_ok E p); exact Hs. Qed.

Lemma makedirs_preserves Q E d : preserves (on_ef Q) (Csr.makedirs E d).
Proof.
  unfold Csr.makedirs. generalize (rev (Csr.path_heads d)) as hs. intros hs. revert d.
  induction hs as [|h r IH]; intros name; simpl.
  - apply mkdir_preserves.
  - apply preserves_bind; [apply path_exists_preserves|intros []];
      (apply preserves_bind; [apply preserves_ret || apply IH|intros; apply mkdir_preserves]).
Qed.

Lemma copy2_preserves Q E src d f : preserves (on_ef Q) (Csr.copy2 E src d f).
Proof.
  intros s Hs. unfold Csr.copy2.
  destruct (Csr.src_file E src) as [w|]; [|exact Hs].
  destruct (negb (Csr.src_readable E src)); [exact Hs|].
  destruct (Csr.lookup_file (d, f) (files s)) as [[]|];
    [destruct (Csr.copy_fault E d f)| |destruct (Csr.dir_writable E d);
       [destruct (Csr.copy_fault E d f)|]]; exact Hs.
Qed.

Global Hint Resolve handle_error_preserves is_dir_preserves makedirs_preserves
  copy2_preserves : preserve.

Ltac preserve_step :=
  match goal with
  | |- preserves _ (bind _ _) => apply preserves_bind; intros
  | |- preserves _ (catch _ _) => apply preserves_catch; intros
  | |- preserves _ (for_each _ _) => apply preserves_for_each; intros
  | |- preserves _ (if ?b then _ else _) => destruct b
  | |- preserves _ (match ?x with _ => _ end) => destruct x
  end.

Ltac prove_preserves := repeat (preserve_step || eauto with preserve).

Lemma check_day_preserves Q E y m d :
  ef_closed Q -> preserves (on_ef Q) (Csr.check_day E y m d).
Proof.
  intros HQ. unfold Csr.check_day, Csr.check_job, Csr.check_sub_dir,
    Csr.copy_artifact, Csr.ensure_dir, Csr.write_copy. prove_preserves.
Qed.

Lemma mcs_check_all_preserves Q E fd ad un :
  ef_closed Q -> preserves (on_ef Q) (Mcs.check_all E fd ad un).
Proof.
  intros HQ. unfold Mcs.check_all.
  destruct (Mcs.providers E) as [ps|exc]; [|prove_preserves].
  generalize (@None string). induction ps as [|p r IH]; intros process; simpl.
  - apply preserves_ret.
  - apply preserves_bind; [|intros; apply IH].
    unfold Mcs.check_provider, Mcs.classify, Mcs.check_file, Mcs.read_file,
      Mcs.report_missing.
    prove_preserves.
    all: generalize (@nil string).
    all: induction (Mcs.csv_rows E _) as [|row rows IHr]; intros fh; simpl;
      prove_preserves.
Qed.

(** ** Facts about [os.makedirs] *)

Lemma str_app_assoc (a b c : string) : (a ++ b) ++ c = a ++ (b ++ c).
Proof. induction a as [|x a IH]; simpl; [reflexivity|rewrite IH; reflexivity]. Qed.

Lemma str_app_nil_r (a : string) : a ++ EmptyString = a.
Proof. induction a as [|x a IH]; simpl; [reflexivity|rewrite IH; reflexivity]. Qed.

Lemma str_length_app (a b : string) :
  String.length (a ++ b) = (String.length a + String.length b)%nat.
Proof. induction a as [|x a IH]; simpl; [reflexivity|rewrite IH; reflexivity]. Qed.

Lemma heads_from_app pre a b :
  Csr.heads_from pre (a ++ b) = (Csr.heads_from pre a ++ Csr.heads_from (pre ++ a) b)%list.
Proof.
  revert pre. induction a as [|c a IH]; intros pre; simpl.
  - rewrite str_app_nil_r. reflexivity.
  - rewrite IH, str_app_assoc. simpl.
    destruct (Ascii.eqb c "/"%char); [rewrite app_assoc|]; reflexivity.
Qed.

(** A head is not empty, and is [pre] followed by a part of the path that
    ends just before a ["/"]. *)
Lemma heads_from_in pre s h :
  In h (Csr.heads_from pre s) ->
  h <> EmptyString /\ exists u rest, s = u ++ String "/" rest /\ h = pre ++ u.
Proof.
  revert pre. induction s as [|c s IH]; intros pre Hin; simpl in Hin; [destruct Hin|].
  assert (Hrec : In h (Csr.heads_from (pre ++ String c EmptyString) s) ->
     h <> EmptyString /\ exists u rest, String c s = u ++ String "/" rest /\ h = pre ++ u).
  { intros H. destruct (IH _ H) as (Hne & u & rest & -> & ->). split; [exact Hne|].
    exists (String c u), rest. split; [reflexivity|]. rewrite str_app_assoc. reflexivity. }
  destruct (Ascii.eqb c "/"%char) eqn:Hc; [|exact (Hrec Hin)].
  apply in_app_or in Hin. destruct Hin as [Hin|Hin]; [|exact (Hrec Hin)].
  destruct (String.eqb pre EmptyString) eqn:Hp; [destruct Hin|].
  destruct Hin as [<-|[]]. split; [apply String.eqb_neq; exact Hp|].
  exists EmptyString, s. apply Ascii.eqb_eq in Hc. subst c.
  rewrite str_app_nil_r. split; reflexivity.
Qed.

Lemma heads_from_length pre s h :
  In h (Csr.heads_from pre s) -> (String.length pre <= String.length h)%nat.
Proof.
  intros H. destruct (heads_from_in pre s h H) as (_ & u & rest & _ & ->).
  rewrite str_length_app. lia.
Qed.

(** The nearest head of a path is its parent, whose own heads are the
    other heads of the path. *)
Lemma path_heads_last name h r :
  rev (Csr.path_heads name) = h :: r -> r = rev (Csr.path_heads h).
Proof.
  intros Hr. assert (Hn : Csr.path_heads name = (rev r ++ [h])%list)
    by (rewrite <- (rev_involutive (Csr.path_heads name)), Hr; reflexivity).
  assert (Hin : In h (Csr.path_heads name)) by (rewrite Hn; apply in_or_app; right; left; reflexivity).
  destruct (heads_from_in _ _ _ Hin) as (Hne & u & rest & Hname & Hh). simpl in Hh. subst u.
  unfold Csr.path_heads in Hn. rewrite Hname, heads_from_app in Hn. simpl in Hn.
  rewrite (proj2 (String.eqb_neq h EmptyString) Hne) in Hn.
  set (T := Csr.heads_from (h ++ "/") rest) in Hn.
  destruct (list_eq_dec string_dec T []) as [HT|HT].
  - rewrite HT, app_nil_r in Hn. apply app_inj_tail in Hn. destruct Hn as [Hn _].
    rewrite <- (rev_involutive r), <- Hn. reflexivity.
  - exfalso. destruct (exists_last HT) as (T' & t & HT').
    rewrite HT' in Hn. rewrite (app_assoc _ [h] (T' ++ [t])), app_assoc in Hn.
    apply app_inj_tail in Hn. destruct Hn as [_ Ht]. subst t.
    assert (Hl := heads_from_length (h ++ "/") rest h).
    rewrite str_length_app in Hl. simpl in Hl.
    assert (In h T) by (rewrite HT'; apply in_or_app; right; left; reflexivity).
    specialize (Hl H). lia.
Qed.

Lemma makedirs_rec_cons E h r name s :
  Csr.makedirs_rec E (h :: r) name s =
  bind (if str_in h (dirs s) then ret tt else Csr.makedirs_rec E r h)
       (fun _ => Csr.mkdir E name) s.
Proof. reflexivity. Qed.

(** What [os.makedirs] leaves: the same errors, files and copies, and the
    directories it made in front of the others, each the target or one of
    the heads it went up through; the target is among them when it
    returns. *)
Lemma makedirs_rec_shape E hs name s :
  exists C,
    snd (Csr.makedirs_rec E hs name s) =
      mkSt (errs s) (found s) (C ++ dirs s) (files s) (copies s) /\
    (forall x, In x C -> x = name \/ In x hs) /\
    (fst (Csr.makedirs_rec E hs name s) = Ret tt -> In name C).
Proof.
  revert name s. induction hs as [|h r IH]; intros name s;
    [simpl|rewrite makedirs_rec_cons].
  - unfold Csr.mkdir. destruct (Csr.mkdir_ok E name); simpl.
    + exists [name]. split; [reflexivity|]. split; [intros x [<-|[]]; left; reflexivity|].
      intros _; left; reflexivity.
    + exists []. split; [destruct s; reflexivity|]. split; [intros x []|discriminate].
  - assert (Hmk : forall s', exists C,
       snd (Csr.mkdir E name s') = mkSt (errs s') (found s') (C ++ dirs s') (files s') (copies s') /\
       (forall x, In x C -> x = name) /\ (fst (Csr.mkdir E name s') = Ret tt -> In name C)).
    { intros s'. unfold Csr.mkdir. destruct (Csr.mkdir_ok E name); simpl.
      - exists [name]. split; [reflexivity|]. split; [intros x [<-|[]]; reflexivity|].
        intros _; left; reflexivity.
      - exists []. split; [destruct s'; reflexivity|]. split; [intros x []|discriminate]. }
    destruct (str_in h (dirs s)).
    + unfold bind, ret. destruct (Hmk s) as (C & H1 & H2 & H3).
      exists C. split; [exact H1|]. split; [intros x Hx; left; apply H2; exact Hx|exact H3].
    + unfold bind. destruct (IH h s) as (C1 & H1 & H2 & H3).
      destruct (Csr.makedirs_rec E r h s) as [[[]|e] s1]; simpl in H1, H3 |- *; subst s1.
      * destruct (Hmk (mkSt (errs s) (found s) (C1 ++ dirs s) (files s) (copies s)))
          as (C & H4 & H5 & H6).
        exists (C ++ C1)%list. rewrite H4. simpl. rewrite app_assoc.
        split; [reflexivity|]. split.
        -- intros x Hx. apply in_app_or in Hx. destruct Hx as [Hx|Hx]; [left; apply H5; exact Hx|].
           right. destruct (H2 x Hx) as [->|Hx']; [left; reflexivity|right; exact Hx'].
        -- intros Hret. apply in_or_app. left. apply H6. exact Hret.
      * exists C1. split; [reflexivity|]. split; [|discriminate].
        intros x Hx. right. destruct (H2 x Hx) as [->|Hx']; [left; reflexivity|right; exact Hx'].
Qed.

(** [os.makedirs] returns when every [os.mkdir] it may call succeeds. *)
Lemma makedirs_rec_ok E hs name s :
  (forall p, In p (name :: hs) -> Csr.mkdir_ok E p = true) ->
  fst (Csr.makedirs_rec E hs name s) = Ret tt.
Proof.
  revert name s. induction hs as [|h r IH]; intros name s Hok;
    [simpl|rewrite makedirs_rec_cons].
  - unfold Csr.mkdir. rewrite (Hok name (or_introl eq_refl)). reflexivity.
  - assert (Hm : forall s', fst (Csr.mkdir E name s') = Ret tt)
      by (intros s'; unfold Csr.mkdir; rewrite (Hok name (or_introl eq_refl)); reflexivity).
    destruct (str_in h (dirs s)); unfold bind.
    + apply Hm.
    + assert (H := IH h s). destruct (Csr.makedirs_rec E r h s) as [r1 s1].
      simpl in H. rewrite H by (intros p Hp; apply Hok; right; exact Hp). apply Hm.
Qed.

(** [if not os.path.isdir(d): os.makedirs(d)] when that creation returns. *)
Lemma ensure_dir_ok E d s :
  (str_in d (dirs s) = false -> fst (Csr.makedirs E d s) = Ret tt) ->
  exists D, Csr.ensure_dir E d s = (Ret tt, mkSt (errs s) (found s) D (files s) (copies s)) /\
            str_in d D = true /\
            (forall x, str_in x D = true -> str_in x (dirs s) = true \/ x = d \/
                                           In x (Csr.path_heads d)).
Proof.
  intros Hmk. unfold Csr.ensure_dir, bind, Csr.is_dir. cbv beta iota.
  destruct (str_in d (dirs s)) eqn:Hd.
  - exists (dirs s). destruct s; split; [reflexivity|]. split; [exact Hd|]. left; exact H.
  - unfold catch. specialize (Hmk eq_refl).
    destruct (makedirs_rec_shape E (rev (Csr.path_heads d)) d s) as (C & H1 & H2 & H3).
    unfold Csr.makedirs in Hmk |- *.
    destruct (Csr.makedirs_rec E (rev (Csr.path_heads d)) d s) as [r s1].
    simpl in Hmk, H1, H3. subst r s1. exists (C ++ dirs s)%list.
    split; [reflexivity|]. split.
    + unfold str_in. rewrite existsb_app. apply orb_true_iff. left.
      apply existsb_exists. exists d. split; [apply H3; reflexivity|apply String.eqb_refl].
    + intros x Hx. unfold str_in in Hx. rewrite existsb_app in Hx.
      apply orb_true_iff in Hx. destruct Hx as [Hx|Hx]; [|left; exact Hx].
      apply existsb_exists in Hx. destruct Hx as (y & Hy & Hxy).
      apply String.eqb_eq in Hxy. subst y. right.
      destruct (H2 x Hy) as [->|Hx]; [left; reflexivity|right; apply in_rev; exact Hx].
Qed.

Lemma datetime_valid_gregorian y m d :
  datetime_valid y m d = true -> gregorian_valid y m d = true.
Proof.
  unfold datetime_valid, gregorian_valid. rewrite !andb_true_iff. tauto.
Qed.

Lemma for_each_map {A B} (g : A -> B) (f : B -> M unit) (l : list A) :
  for_each (map g l) f = for_each l (fun x => f (g x)).
Proof. induction l as [|x r IH]; simpl; [reflexivity|rewrite IH; reflexivity]. Qed.

Lemma datetime_valid_bounds y m d :
  datetime_valid y m d = true ->
  1 <= y <= 9999 /\ 1 <= m <= 12 /\ 1 <= d <= days_in_month y m.
Proof.
  unfold datetime_valid. rewrite !andb_true_iff, !Z.leb_le. tauto.
Qed.

Lemma last_month_last_day (today : date) :
  dd (last_month today) = days_in_month (dy (last_month today)) (dm (last_month today)).
Proof.
  unfold last_month, date_pred; simpl.
  destruct (1 <? dm today); reflexivity.
Qed.

Lemma last_month_year (today : date) :
  dy today - 1 <= dy (last_month today) <= dy today.
Proof.
  unfold last_month, date_pred; simpl.
  destruct (1 <? dm today); simpl; lia.
Qed.

Lemma last_month_month (today : date) :
  1 <= dm today <= 12 -> 1 <= dm (last_month today) <= 12.
Proof.
  intros H. unfold last_month, date_pred; simpl.
  destruct (Z.ltb_spec 1 (dm today)); simpl; lia.
Qed.

Lemma monthrange_days_ok y m :
  1 <= y <= 9999 -> 1 <= m <= 12 -> monthrange_days y m = Ret (days_in_month y m).
Proof.
  intros Hy Hm. unfold monthrange_days.
  rewrite (proj2 (Z.leb_le 1 m)), (proj2 (Z.leb_le m 12)), (proj2 (Z.leb_le 1 y)),
    (proj2 (Z.leb_le y 9999)) by lia.
  reflexivity.
Qed.

Lemma days_in_month_le_31 y m : days_in_month y m <= 31.
Proof.
  unfold days_in_month.
  destruct (Z.eqb m 2); [destruct (is_leap y)|destruct (existsb _ _)]; lia.
Qed.

(** ** C2 *)

(** C2 (amended): for every (year, month, day) triple that is not a
    Gregorian date, the day checker exits with status 2 before any access
    to the filesystem (its outcome does not depend on the filesystem and
    leaves the destination tree untouched, with no error recorded); the
    hour checker exits with status 3 when month and day are among
    argparse's choices (argparse's own status 2 otherwise), also before
    any access to job or provider data. *)
Theorem invalid_date_exit_codes (y m d : Z) (Hinv : gregorian_valid y m d = false) :
  (forall (E : Csr.env) today ds fs,
     Csr.run E today (Csr.mkArgs (Some y) (Csr.MM m) (Some d)) ds fs =
     mkOutcome [] 2 [] (st0 ds fs)) /\
  (forall (E : Mcs.env) host stamp ad un,
     Mcs.run E host stamp (Mcs.mkArgs y m d ad un) =
     mkOutcome []
       (if (1 <=? m) && (m <=? 12) && (1 <=? d) && (d <=? 31) && negb (ad && un)
        then 3 else 2) [] (st0 [] [])).
Proof.
  assert (Hdt : datetime_valid y m d = false).
  { destruct (datetime_valid y m d) eqn:H; [|reflexivity].
    apply datetime_valid_gregorian in H. congruence. }
  split.
  - intros E today ds fs. unfold Csr.run, Csr.get_args; simpl.
    destruct ((1 <=? m) && (m <=? 12) && ((1 <=? d) && (d <=? 31))); simpl;
      [rewrite Hdt|]; reflexivity.
  - intros E host stamp ad un. unfold Mcs.run, Mcs.get_args; simpl.
    destruct ((1 <=? m) && (m <=? 12) && (1 <=? d) && (d <=? 31) && negb (ad && un));
      simpl; [rewrite Hdt|]; reflexivity.
Qed.

Lemma invalid_date_exit_codes_witness :
  gregorian_valid 2017 2 31 = false /\
  Csr.run (Csr.mkEnv (fun _ => true) (fun _ => []) (fun _ => None) (fun _ => true) (fun _ => true)
             (fun _ => true) (fun _ _ => None))
          (mkDate 2024 6 5) (Csr.mkArgs (Some 2017) (Csr.MM 2) (Some 31)) [] [] =
  mkOutcome [] 2 [] (st0 [] []).
Proof.
  split; [reflexivity|].
  apply (proj1 (invalid_date_exit_codes 2017 2 31 eq_refl)).
Defined.

Definition mcs_env_empty : Mcs.env :=
  Mcs.mkEnv (inl []) (fun _ => true) (fun _ => true) (fun _ => []) (fun _ => None)
            (fun _ => EmptyString) 0.

(** C2 counterexample: the hour checker, given 2017-02-31, exits with
    status 3, not 2. *)
Lemma hour_checker_invalid_date_exit_3 :
  code (Mcs.run mcs_env_empty "host" "20170231" (Mcs.mkArgs 2017 2 31 false false)) = 3.
Proof. reflexivity. Qed.

(** ** C3 *)

(** C3: with [-m CURMON] and no day, the run checks day 1 through
    yesterday of the current month, or, when today is the 1st, every day
    of the previous month; on the 1st the run is the one of [-m PREMON]. *)
Theorem curmon_checks_until_yesterday (E : Csr.env) (today : date)
  (yarg : option Z) (ds : list string) (fs : list ((string * string) * bool))
  (Hv : datetime_valid (dy today) (dm today) (dd today) = true)
  (Hy : 1 < dy today) :
  Csr.run E today (Csr.mkArgs yarg Csr.CURMON None) ds fs =
  Csr.finish (check_dates E (curmon_expected today) (st0 ds fs)) /\
  (dd today = 1 ->
   Csr.run E today (Csr.mkArgs yarg Csr.CURMON None) ds fs =
   Csr.run E today (Csr.mkArgs yarg Csr.PREMON None) ds fs).
Proof.
  apply datetime_valid_bounds in Hv.
  assert (Hlm := last_month_year today).
  assert (Hcur : Csr.run E today (Csr.mkArgs yarg Csr.CURMON None) ds fs =
                 Csr.finish (check_dates E (curmon_expected today) (st0 ds fs))).
  { unfold Csr.run, Csr.get_args; simpl. unfold Csr.main.
    rewrite (proj2 (Z.eqb_neq (dy today) 0)) by lia.
    unfold Csr.check_month, Csr.month_plan, curmon_expected, check_dates.
    destruct (Z.eqb_spec (dd today) 1) as [H1|H1].
    - replace (date_pred today) with (last_month today)
        by (destruct today as [ty tm td]; simpl in *; subst; reflexivity).
      rewrite last_month_last_day, for_each_map. reflexivity.
    - replace (dd (date_pred today)) with (dd today - 1)
        by (unfold date_pred; rewrite (proj2 (Z.ltb_lt 1 (dd today))) by lia;
            reflexivity).
      rewrite for_each_map. reflexivity. }
  split; [exact Hcur|].
  intros H1. rewrite Hcur.
  assert (Hlmm := last_month_month today (proj1 (proj2 Hv))).
  unfold Csr.run, Csr.get_args; simpl. unfold Csr.main.
  rewrite (proj2 (Z.eqb_neq (dy (last_month today)) 0)) by lia.
  unfold Csr.check_month, Csr.month_plan, curmon_expected, check_dates.
  rewrite monthrange_days_ok by lia.
  rewrite (proj2 (Z.eqb_eq (dd today) 1) H1), for_each_map. reflexivity.
Qed.

Lemma curmon_checks_until_yesterday_witness :
  datetime_valid 2024 3 1 = true /\ 1 < 2024 /\
  Csr.run (Csr.mkEnv (fun _ => true) (fun _ => []) (fun _ => None) (fun _ => true) (fun _ => true)
             (fun _ => true) (fun _ _ => None))
          (mkDate 2024 3 1) (Csr.mkArgs None Csr.CURMON None) [] [] =
  Csr.run (Csr.mkEnv (fun _ => true) (fun _ => []) (fun _ => None) (fun _ => true) (fun _ => true)
             (fun _ => true) (fun _ _ => None))
          (mkDate 2024 3 1) (Csr.mkArgs None Csr.PREMON None) [] [].
Proof.
  split; [reflexivity|]. split; [lia|].
  apply (proj2 (curmon_checks_until_yesterday
    (Csr.mkEnv (fun _ => true) (fun _ => []) (fun _ => None) (fun _ => true) (fun _ => true)
       (fun _ => true) (fun _ _ => None))
    (mkDate 2024 3 1) None [] [] eq_refl ltac:(simpl; lia))).
  reflexivity.
Defined.

(** ** C4 *)

Definition csr_env_backups_missing : Csr.env :=
  Csr.mkEnv
    (fun p => negb (String.eqb p (join Csr.CSR_path "consolidation_backups")))
    (fun _ => []) (fun _ => None) (fun _ => true) (fun _ => true) (fun _ => true) (fun _ _ => None).

(** C4: for a job whose root path does not exist, its iteration records
    exactly one error, "The path ... does not exist.", touches neither the
    destination tree nor the copier (no artifact of it is enumerated) and
    returns normally, so the loop goes on with the next job; a run on an
    explicit valid day with such a job ends with exit status 1. *)
Theorem missing_job_root_single_error (E : Csr.env) (y m d : Z) (j : string)
  (Hj : Csr.job_exists E (join Csr.CSR_path j) = false) :
  (forall s, Csr.check_job E y m d j s =
     (Ret tt, mkSt (errs s ++ [Csr.missing_job_msg (join Csr.CSR_path j)]) true
                   (dirs s) (files s) (copies s))) /\
  (In j Csr.job_names -> datetime_valid y m d = true ->
   forall today ds fs,
     code (Csr.run E today (Csr.mkArgs (Some y) (Csr.MM m) (Some d)) ds fs) = 1).
Proof.
  assert (Hstep : forall s, Csr.check_job E y m d j s =
     (Ret tt, mkSt (errs s ++ [Csr.missing_job_msg (join Csr.CSR_path j)]) true
                   (dirs s) (files s) (copies s))).
  { intros s. unfold Csr.check_job. rewrite Hj. reflexivity. }
  split; [exact Hstep|].
  intros Hin Hv today ds fs.
  pose proof (datetime_valid_bounds _ _ _ Hv) as Hb.
  pose proof (days_in_month_le_31 y m).
  unfold Csr.run, Csr.get_args; simpl.
  rewrite (proj2 (Z.leb_le 1 m)), (proj2 (Z.leb_le m 12)),
    (proj2 (Z.leb_le 1 d)), (proj2 (Z.leb_le d 31)) by lia.
  simpl. rewrite Hv. unfold Csr.main.
  rewrite (proj2 (Z.eqb_neq y 0)) by lia.
  unfold Csr.finish, Csr.check_day.
  set (P := on_ef (fun _ b => b = true)).
  assert (HP : fst (for_each Csr.job_names (Csr.check_job E y m d) (st0 ds fs)) = Ret tt ->
               P (snd (for_each Csr.job_names (Csr.check_job E y m d) (st0 ds fs)))).
  { apply for_each_reaches with (x := j); [| exact Hin |].
    - intros job. unfold Csr.check_job.
      change (preserves (on_ef (fun _ b => b = true))
                (if Csr.job_exists E (join Csr.CSR_path job)
                 then for_each (Csr.walk_dirs E (join Csr.CSR_path job))
                        (Csr.check_sub_dir E y m d job)
                 else handle_error (Csr.missing_job_msg (join Csr.CSR_path job)))).
      assert (HQ : ef_closed (fun _ b => b = true)) by (intros l b e _; reflexivity).
      unfold Csr.check_sub_dir, Csr.copy_artifact, Csr.ensure_dir, Csr.write_copy.
      prove_preserves.
    - intros s' _. rewrite Hstep. reflexivity. }
  destruct (for_each Csr.job_names (Csr.check_job E y m d) (st0 ds fs))
    as [[[]|e] s'] eqn:Erun; simpl in *; [|reflexivity].
  unfold Csr.notify. rewrite (HP eq_refl). reflexivity.
Qed.

Lemma missing_job_root_single_error_witness :
  Csr.job_exists csr_env_backups_missing (join Csr.CSR_path "consolidation_backups") = false /\
  code (Csr.run csr_env_backups_missing (mkDate 2024 6 5)
          (Csr.mkArgs (Some 2024) (Csr.MM 6) (Some 5)) [] []) = 1.
Proof.
  split; [reflexivity|].
  apply (proj2 (missing_job_root_single_error csr_env_backups_missing 2024 6 5
                  "consolidation_backups" eq_refl)); [simpl; auto | reflexivity].
Defined.

(** ** C1 *)

Lemma csr_main_preserves Q E today y m d cm :
  ef_closed Q -> preserves (on_ef Q) (Csr.main E today y m d cm).
Proof.
  intros HQ. unfold Csr.main.
  destruct y as [y|]; [|apply preserves_ret].
  destruct (Z.eqb y 0); [apply preserves_ret|].
  destruct d as [d|]; [apply check_day_preserves; exact HQ|].
  unfold Csr.check_month. destruct (Csr.month_plan today cm y m) as [[[y' m'] dom]|e];
    [|apply preserves_raise].
  apply preserves_for_each. intros. apply check_day_preserves; exact HQ.
Qed.

Definition mcs_env_missing_file : Mcs.env :=
  Mcs.mkEnv (inl ["p1_nova"]) (fun _ => true) (fun _ => false) (fun _ => []) (fun _ => None)
            (fun p => "[Errno 2] No such file or directory: '" ++ p ++ "'") 0.

(** C1 (code bug): neither checker notifies anyone.  Both end a run that
    found errors by looking up [emailer.build_email], which [emailer.py]
    does not define: the [AttributeError] is not caught, nothing is sent
    and the process exits with status 1 ([exit(1)] of the day checker is
    never reached).  A run with no error, or one aborted earlier by another
    exception, sends nothing either.  In a run that reaches the end of the
    checks, the exit status is 1 exactly when an error was recorded (for
    the hour checker: after the header line, the trailer being recorded
    then), and 0 otherwise. *)
Theorem build_email_missing_no_notification :
  (forall (E : Csr.env) today a ds fs, sent (Csr.run E today a ds fs) = []) /\
  (forall (E : Mcs.env) host stamp a, sent (Mcs.run E host stamp a) = []) /\
  (forall (E : Csr.env) today a ds fs y m d cm r s,
     Csr.get_args a today = Csr.Main y m d cm ->
     Csr.main E today y m d cm (st0 ds fs) = (Ret r, s) ->
     code (Csr.run E today a ds fs) = (if is_nil (errs s) then 0 else 1) /\
     recorded (Csr.run E today a ds fs) = errs s) /\
  (forall (E : Mcs.env) host stamp a fd ad un r s,
     Mcs.get_args a = inr (fd, ad, un) ->
     Mcs.check_all E fd ad un (mkSt [Mcs.header fd host] false [] [] []) = (Ret r, s) ->
     code (Mcs.run E host stamp a) = (if is_nil (tl (errs s)) then 0 else 1) /\
     recorded (Mcs.run E host stamp a) =
       (if is_nil (tl (errs s)) then errs s else app (errs s) [Mcs.trailer stamp])).
Proof.
  split; [|split; [|split]].
  - intros E today a ds fs. unfold Csr.run. destruct (Csr.get_args a today); [reflexivity|].
    unfold Csr.finish, Csr.notify.
    destruct (Csr.main _ _ _ _ _ _ _) as [[[]|e] s]; [destruct (found s)|]; reflexivity.
  - intros E host stamp a. unfold Mcs.run. destruct (Mcs.get_args a) as [c|[[fd ad] un]];
      [reflexivity|].
    unfold Mcs.finish. destruct (Mcs.main _ _ _ _ _ _ _) as [[[]|e] s]; reflexivity.
  - intros E today a ds fs y m d cm r s Ha Hm.
    set (Q := fun (l : list string) (b : bool) => b = true <-> l <> []).
    assert (HQ : ef_closed Q).
    { intros l b e _. unfold Q. split; [intros _; destruct l; discriminate|reflexivity]. }
    assert (Hinv := csr_main_preserves Q E today y m d cm HQ (st0 ds fs)).
    rewrite Hm in Hinv. simpl in Hinv.
    assert (H0 : on_ef Q (st0 ds fs)).
    { unfold on_ef, Q; simpl. split; [discriminate|intros H; exfalso; apply H; reflexivity]. }
    specialize (Hinv H0). unfold on_ef, Q in Hinv.
    unfold Csr.run. rewrite Ha, Hm. unfold Csr.finish, Csr.notify.
    destruct (found s) eqn:Ef; destruct (errs s) as [|x l] eqn:Ee; simpl;
      try (split; reflexivity).
    + exfalso. apply (proj1 Hinv eq_refl). reflexivity.
    + exfalso. assert (false = true) by (apply Hinv; discriminate). discriminate.
  - intros E host stamp a fd ad un r s Ha Hc.
    set (Q := fun (l : list string) (b : bool) =>
                exists rest, l = Mcs.header fd host :: rest /\ (b = true <-> rest <> [])).
    assert (HQ : ef_closed Q).
    { intros l b e [rest [-> _]]. exists (rest ++ [e])%list. split; [reflexivity|].
      split; [intros _; destruct rest; discriminate|reflexivity]. }
    assert (Hinv := mcs_check_all_preserves Q E fd ad un HQ
                      (mkSt [Mcs.header fd host] false [] [] [])).
    rewrite Hc in Hinv. simpl in Hinv.
    assert (H0 : on_ef Q (mkSt [Mcs.header fd host] false [] [] [])).
    { exists []. split; [reflexivity|]. split; [discriminate|].
      intros H; exfalso; apply H; reflexivity. }
    destruct (Hinv H0) as [rest [Herrs Hf]].
    unfold Mcs.run. rewrite Ha. unfold Mcs.finish, Mcs.main, bind, append_error.
    simpl. rewrite Hc. unfold Mcs.get_found.
    destruct (found s) eqn:Ef; destruct rest as [|x rest]; simpl; rewrite ?Herrs;
      try (split; reflexivity).
    + exfalso. apply (proj1 Hf eq_refl). reflexivity.
    + exfalso. assert (false = true) by (apply Hf; discriminate). discriminate.
Qed.

Lemma build_email_missing_no_notification_witness :
  Mcs.get_args (Mcs.mkArgs 2024 6 5 false false) = inr ("20240605", false, false) /\
  code (Mcs.run mcs_env_missing_file "host" "20240605" (Mcs.mkArgs 2024 6 5 false false)) = 1.
Proof.
  split; [reflexivity|].
  rewrite (proj1 (proj2 (proj2 (proj2 build_email_missing_no_notification))
    mcs_env_missing_file "host" "20240605"
    (Mcs.mkArgs 2024 6 5 false false) "20240605" false false tt
    (snd (Mcs.check_all mcs_env_missing_file "20240605" false false
            (mkSt [Mcs.header "20240605" "host"] false [] [] [])))
    eq_refl eq_refl)).
  vm_compute. reflexivity.
Defined.

(** ** C5 *)

Lemma str_in_cons_self d l : str_in d (d :: l) = true.
Proof. unfold str_in; simpl. rewrite String.eqb_refl. reflexivity. Qed.

Definition csr_env_copystat_fails : Csr.env :=
  Csr.mkEnv (fun _ => true)
    (fun p => if String.eqb p (join Csr.CSR_path "consolidation_nova_compute")
              then ["sat1"] else [])
    (fun _ => Some true) (fun _ => true) (fun _ => true) (fun _ => true)
    (fun d f => Some (OSError ("[Errno 1] Operation not permitted: '" ++ join d f ++ "'"))).

(** C5 counterexample: a copy that fails with an [OSError] (raised by
    [copystat] when the metadata of the copy cannot be set) is not recorded
    as an error: the run is aborted, nothing is sent and no error is
    recorded. *)
Lemma copy_oserror_aborts_run :
  let o := Csr.run csr_env_copystat_fails (mkDate 2024 6 5)
             (Csr.mkArgs (Some 2024) (Csr.MM 6) (Some 5)) [] [] in
  recorded o = [] /\ sent o = [] /\ code o = 1 /\
  copies (final o) =
    ["/opt/ibm/sccm/samples/logs/collectors/consolidation_nova_compute/sat1/20240605.txt"].
Proof. repeat split; reflexivity. Qed.

(** C5 (amended): for an artifact whose source file is present, when the
    destination directory exists or its creation by [os.makedirs]
    returns: the directory exists afterwards and the copy is attempted
    exactly once, also when the directory is not writable (which records
    its own error first).  Let [c] be the outcome of [shutil.copy2] (it
    depends on the environment and the destination files only, which the
    steps before it leave as they are).  A copy failing with [IOError] is
    recorded as one error carrying the exception text and the iteration
    returns normally; a copy failing with another exception records
    nothing and aborts the iteration with that exception; a copy that
    succeeds records nothing more.  The copy fails with an [IOError]
    "Permission denied" when the source cannot be read, when the
    destination file is read-only, and when it does not exist in an
    unwritable directory; otherwise it fails with the fault of the copy,
    if any. *)
Theorem copier_records_io_failures (E : Csr.env) (full d f : string) (s : st) (w : bool)
  (Hsrc : Csr.src_file E full = Some w)
  (Hmk : str_in d (dirs s) = false -> fst (Csr.makedirs E d s) = Ret tt) :
  let r := Csr.copy_artifact E full d f s in
  let c := fst (Csr.copy2 E full d f s) in
  let wr := if Csr.dir_writable E d then [] else ["Unable to write to " ++ d] in
  str_in d (dirs (snd r)) = true /\
  copies (snd r) = app (copies s) [join d f] /\
  (forall m, c = Raise (IOError m) ->
     fst r = Ret tt /\
     errs (snd r) = app (errs s) (app wr ["Unable to copy file. " ++ m ++ nl])) /\
  (forall e, c = Raise e -> (forall m, e <> IOError m) ->
     fst r = Raise e /\ errs (snd r) = app (errs s) wr) /\
  (c = Ret tt -> fst r = Ret tt /\ errs (snd r) = app (errs s) wr) /\
  (Csr.src_readable E full = false ->
     c = Raise (IOError ("[Errno 13] Permission denied: '" ++ full ++ "'"))) /\
  (Csr.src_readable E full = true ->
   Csr.lookup_file (d, f) (files s) = Some false \/
   (Csr.lookup_file (d, f) (files s) = None /\ Csr.dir_writable E d = false) ->
     c = Raise (IOError ("[Errno 13] Permission denied: '" ++ join d f ++ "'"))) /\
  (Csr.src_readable E full = true ->
   Csr.lookup_file (d, f) (files s) = Some true \/
   (Csr.lookup_file (d, f) (files s) = None /\ Csr.dir_writable E d = true) ->
     c = match Csr.copy_fault E d f with Some e => Raise e | None => Ret tt end).
Proof.
  intros r c wr. subst r c wr.
  destruct (ensure_dir_ok E d s Hmk) as (D & HD & Hd & _).
  assert (Hca : Csr.copy_artifact E full d f s =
                Csr.write_copy E full d f (mkSt (errs s) (found s) D (files s) (copies s)))
    by (unfold Csr.copy_artifact, bind at 1; rewrite HD; reflexivity).
  rewrite Hca. unfold Csr.write_copy, Csr.copy2, bind, catch, ret, handle_error.
  simpl. rewrite Hsrc.
  destruct (Csr.src_readable E full) eqn:Hr; destruct (Csr.dir_writable E d) eqn:Hw; simpl;
    destruct (Csr.lookup_file (d, f) (files s)) as [[]|] eqn:Hl; simpl;
    try destruct (Csr.copy_fault E d f) as [[]|] eqn:Hf; simpl.
  all: split; [exact Hd|]; split; [reflexivity|].
  all: repeat match goal with
       | |- _ /\ _ => split
       | |- forall _, _ => intros
       | H : _ \/ _ |- _ => destruct H
       | H : _ /\ _ |- _ => destruct H
       | H : Raise _ = Raise _ |- _ => injection H as H
       end.
  all: subst; try discriminate; try congruence;
    rewrite ?app_nil_r, <- ?app_assoc; try reflexivity.
  all: exfalso; eapply H0; reflexivity.
Qed.

Definition csr_env_src_unreadable : Csr.env :=
  Csr.mkEnv (fun _ => true) (fun _ => []) (fun _ => Some true) (fun _ => false)
    (fun _ => true) (fun _ => true) (fun _ _ => None).

Lemma copier_records_io_failures_witness :
  (Csr.src_file csr_env_src_unreadable "src" = Some true /\
   (str_in "d" (dirs (st0 [] [])) = false ->
    fst (Csr.makedirs csr_env_src_unreadable "d" (st0 [] [])) = Ret tt)) /\
  fst (Csr.copy_artifact csr_env_src_unreadable "src" "d" "f.txt" (st0 [] [])) = Ret tt /\
  errs (snd (Csr.copy_artifact csr_env_src_unreadable "src" "d" "f.txt" (st0 [] []))) =
    ["Unable to copy file. " ++ "[Errno 13] Permission denied: 'src'" ++ nl].
Proof.
  assert (H := copier_records_io_failures csr_env_src_unreadable "src" "d" "f.txt"
                 (st0 [] []) true eq_refl (fun _ => eq_refl)).
  cbv zeta in H. destruct H as (_ & _ & Hio & _).
  destruct (Hio "[Errno 13] Permission denied: 'src'" eq_refl) as [H1 H2].
  split; [split; [reflexivity|intros; reflexivity]|].
  split; [exact H1|]. rewrite H2. reflexivity.
Defined.

(** ** C6 *)

Definition mcs_env_bad_first : Mcs.env :=
  Mcs.mkEnv (inl ["bad_provider"; "p1_nova"]) (fun _ => true) (fun _ => true)
    (fun _ => []) (fun _ => None) (fun _ => EmptyString) 0.

(** C6 (failing input): a provider with an unrecognized suffix listed
    before any nova or cinder provider.  Its error is recorded, but the
    branch does not [continue]: the next statement reads the unassigned
    local [process] and raises [UnboundLocalError], so the run is aborted
    (status 1, no notification) and the provider [p1_nova] after it is
    never examined. *)
Theorem unrecognized_first_provider_aborts :
  Mcs.check_all mcs_env_bad_first "20240605" false false
    (mkSt [Mcs.header "20240605" "host"] false [] [] []) =
  (Raise (UnboundLocalError "local variable 'process' referenced before assignment"),
   mkSt [Mcs.header "20240605" "host"; "The provider bad_provider is not valid."]
        true [] [] []) /\
  Mcs.run mcs_env_bad_first "host" "20240605" (Mcs.mkArgs 2024 6 5 false false) =
  mkOutcome [] 1 [Mcs.header "20240605" "host"; "The provider bad_provider is not valid."]
    (mkSt [Mcs.header "20240605" "host"; "The provider bad_provider is not valid."]
          true [] [] []).
Proof. split; reflexivity. Qed.

(** ** C7 *)

Lemma str_in_spec x l : str_in x l = true <-> In x l.
Proof.
  unfold str_in. rewrite existsb_exists. split.
  - intros [y [Hy Heq]]. apply String.eqb_eq in Heq. subst. exact Hy.
  - intros Hx. exists x. split; [exact Hx|apply String.eqb_refl].
Qed.

Lemma search_metadata_spec row :
  Mcs.search_metadata row = false <-> exists field, In field Mcs.metadata /\ ~ In field row.
Proof.
  unfold Mcs.search_metadata, Mcs.metadata; simpl.
  destruct (str_in "ActionInProgress" row) eqn:H1,
           (str_in "NetworkZone" row) eqn:H2,
           (str_in "TemplateName" row) eqn:H3; simpl;
  rewrite <- ?Bool.not_true_iff_false, ?str_in_spec in *;
  split; intros H; try discriminate;
  try (destruct H as [field [Hf Hn]]; simpl in Hf;
       destruct Hf as [<-|[<-|[<-|[]]]]; contradiction);
  try (exists "ActionInProgress"; simpl; tauto);
  try (exists "NetworkZone"; simpl; tauto);
  try (exists "TemplateName"; simpl; tauto).
Qed.

(** C7 counterexample: a record with only three columns, followed by a
    record that lacks every metadata name: [row[3]] raises [IndexError] on
    the first one, the reading of the file stops with one read error, and
    neither record gets its metadata error. *)
Lemma short_record_stops_file :
  errs (snd (Mcs.read_rows "f.txt" [["a"; "b"; "c"]; ["x"; "y"; "z"; "01:00:00"]] []
                (st0 [] []))) =
  [Mcs.read_error_msg "f.txt" "list index out of range"].
Proof. reflexivity. Qed.

(** C7 (amended): a record lacks a metadata name exactly when one of the
    fixed names is not among its values; over records of at least four
    columns, the reading records exactly one metadata error per such
    record, in order, and reads every record; a record of at most three
    columns stops the reading of the file with one file-read error. *)
Theorem metadata_error_per_record (full : string) :
  (forall row, Mcs.search_metadata row = false <->
               exists field, In field Mcs.metadata /\ ~ In field row) /\
  (forall rows fh s, Forall (fun row => (3 < List.length row)%nat) rows ->
     fst (Mcs.read_rows full rows fh s) =
       Ret (Mcs.add_unique fh (map (fun row => nth 3 row EmptyString) rows)) /\
     errs (snd (Mcs.read_rows full rows fh s)) =
       app (errs s) (map Mcs.metadata_msg
                      (filter (fun row => negb (Mcs.search_metadata row)) rows))) /\
  (forall row rest fh s, (List.length row <= 3)%nat ->
     Mcs.read_rows full (row :: rest) fh s =
     (Ret fh, mkSt (app (errs s) [Mcs.read_error_msg full "list index out of range"]) true
                   (dirs s) (files s) (copies s))).
Proof.
  split; [exact search_metadata_spec|]. split.
  - intros rows. induction rows as [|row rows IH]; intros fh s Hall;
      cbn -[nth_error nth Mcs.search_metadata Mcs.metadata_msg].
    + rewrite app_nil_r. split; reflexivity.
    + inversion Hall as [|? ? Hlen Hrest]; subst.
      destruct (nth_error row 3) as [h|] eqn:Hn.
      2:{ apply nth_error_None in Hn. lia. }
      rewrite (nth_error_nth row 3 EmptyString Hn).
      unfold bind. destruct (Mcs.search_metadata row); cbn -[nth_error nth Mcs.search_metadata Mcs.metadata_msg].
      * apply IH. exact Hrest.
      * destruct (IH (if str_in h fh then fh else (fh ++ [h])%list)
                     (mkSt (app (errs s) [Mcs.metadata_msg row]) true
                           (dirs s) (files s) (copies s)) Hrest) as [H1 H2].
        split; [exact H1|]. rewrite H2. simpl. rewrite <- app_assoc. reflexivity.
  - intros row rest fh s Hlen. cbn -[nth_error].
    replace (nth_error row 3) with (@None string)
      by (symmetry; apply nth_error_None; lia).
    reflexivity.
Qed.

Lemma metadata_error_per_record_witness :
  Forall (fun row => (3 < List.length row)%nat)
    [["a"; "b"; "c"; "01:00:00"]; ["ActionInProgress"; "NetworkZone"; "TemplateName"; "02:00:00"]] /\
  errs (snd (Mcs.read_rows "f.txt"
    [["a"; "b"; "c"; "01:00:00"]; ["ActionInProgress"; "NetworkZone"; "TemplateName"; "02:00:00"]]
    [] (st0 [] []))) = [Mcs.metadata_msg ["a"; "b"; "c"; "01:00:00"]].
Proof.
  split; [repeat constructor; simpl; lia|].
  exact (proj2 (proj1 (proj2 (metadata_error_per_record "f.txt"))
    [["a"; "b"; "c"; "01:00:00"]; ["ActionInProgress"; "NetworkZone"; "TemplateName"; "02:00:00"]]
    [] (st0 [] []) ltac:(repeat constructor; simpl; lia))).
Defined.

(** ** C8 *)

(** Following the spec's words: the expected hour buckets of each mode. *)
Definition expected_buckets (all_day up_to_now : bool) (h : nat) : list string :=
  map Mcs.fmt_hour
    (if all_day then seq 0 24 else if up_to_now then seq 0 (S h) else [h]).

Lemma report_missing_spec process feed fh hours s :
  Mcs.report_missing process feed fh hours s =
  (Ret tt, mkSt (app (errs s) (map (fun hr => Mcs.missing_msg hr process feed)
                                (filter (fun hr => negb (str_in hr fh)) hours)))
                (found s || existsb (fun hr => negb (str_in hr fh)) hours)
                (dirs s) (files s) (copies s)).
Proof.
  unfold Mcs.report_missing. revert s.
  induction hours as [|hr hours IH]; intros s; simpl.
  - rewrite app_nil_r, orb_false_r. destruct s; reflexivity.
  - unfold bind. destruct (str_in hr fh); simpl; rewrite IH; simpl.
    + reflexivity.
    + rewrite <- app_assoc, orb_true_r. reflexivity.
Qed.

Lemma fmt_hour_inj_check :
  forallb (fun a => forallb (fun b =>
    implb (String.eqb (Mcs.fmt_hour a) (Mcs.fmt_hour b)) (Nat.eqb a b))
    (seq 0 24)) (seq 0 24) = true.
Proof. vm_compute. reflexivity. Qed.

Lemma fmt_hour_inj a b : (a < 24)%nat -> (b < 24)%nat ->
  Mcs.fmt_hour a = Mcs.fmt_hour b -> a = b.
Proof.
  intros Ha Hb Hab.
  pose proof fmt_hour_inj_check as H.
  rewrite forallb_forall in H.
  specialize (H a ltac:(apply in_seq; lia)).
  rewrite forallb_forall in H.
  specialize (H b ltac:(apply in_seq; lia)).
  rewrite Hab, String.eqb_refl in H. simpl in H.
  apply Nat.eqb_eq. exact H.
Qed.

Lemma NoDup_hours n : (n <= 24)%nat -> NoDup (map Mcs.fmt_hour (seq 0 n)).
Proof.
  intros Hn. apply NoDup_map_NoDup_ForallPairs; [|apply seq_NoDup].
  intros a b Ha Hb. apply in_seq in Ha, Hb. apply fmt_hour_inj; lia.
Qed.

Lemma add_unique_nodup acc l :
  NoDup (acc ++ l) -> Mcs.add_unique acc l = app acc l.
Proof.
  revert acc. induction l as [|x l IH]; intros acc Hnd; simpl.
  - rewrite app_nil_r. reflexivity.
  - assert (Hx : str_in x acc = false).
    { apply Bool.not_true_iff_false. rewrite str_in_spec. intros Hin.
      apply NoDup_remove_2 in Hnd. apply Hnd. apply in_or_app. left. exact Hin. }
    rewrite Hx, IH; [rewrite <- app_assoc; reflexivity|].
    rewrite <- app_assoc. exact Hnd.
Qed.

(** C8: the expected buckets are "HH:00:00" for hours 0 through 23 with
    [-a], for hours 0 through the current UTC hour with [-u], and the
    current UTC hour alone otherwise; they are distinct, and each one
    absent from the buckets read in the file gives exactly one
    missing-entry error, in order, the present ones none. *)
Theorem hour_buckets_and_missing_entries (all_day up_to_now : bool) (h : nat)
  (Hh : (h < 24)%nat) :
  Mcs.comparison_hours all_day up_to_now h = expected_buckets all_day up_to_now h /\
  NoDup (expected_buckets all_day up_to_now h) /\
  (forall process feed file_hours s,
     Mcs.report_missing process feed file_hours
       (Mcs.comparison_hours all_day up_to_now h) s =
     (Ret tt,
      mkSt (app (errs s) (map (fun hr => Mcs.missing_msg hr process feed)
              (filter (fun hr => negb (str_in hr file_hours))
                 (expected_buckets all_day up_to_now h))))
           (found s || existsb (fun hr => negb (str_in hr file_hours))
                         (expected_buckets all_day up_to_now h))
           (dirs s) (files s) (copies s))).
Proof.
  assert (Heq : Mcs.comparison_hours all_day up_to_now h =
                expected_buckets all_day up_to_now h).
  { unfold Mcs.comparison_hours, expected_buckets.
    destruct all_day; [apply add_unique_nodup, NoDup_hours; lia|].
    destruct up_to_now; [|reflexivity].
    rewrite Nat.add_1_r. apply add_unique_nodup, NoDup_hours. lia. }
  split; [exact Heq|]. split.
  - unfold expected_buckets.
    destruct all_day; [apply NoDup_hours; lia|].
    destruct up_to_now; [apply NoDup_hours; lia|].
    constructor; [intros []|constructor].
  - intros. rewrite Heq. apply report_missing_spec.
Qed.

Lemma hour_buckets_and_missing_entries_witness :
  (5 < 24)%nat /\
  Mcs.comparison_hours false true 5 = expected_buckets false true 5.
Proof.
  split; [lia|].
  exact (proj1 (hour_buckets_and_missing_entries false true 5 ltac:(lia))).
Defined.

(** ** C9 *)

Lemma key_eqb_spec a b : Csr.key_eqb a b = true <-> a = b.
Proof.
  destruct a as [a1 a2], b as [b1 b2]. unfold Csr.key_eqb; simpl.
  rewrite andb_true_iff, !String.eqb_eq. split.
  - intros [-> ->]; reflexivity.
  - intros H; injection H; auto.
Qed.

Lemma find_filter_irrelevant {A} (p q : A -> bool) (l : list A) :
  (forall x, p x = true -> q x = true) -> find p (filter q l) = find p l.
Proof.
  intros Hpq. induction l as [|x r IH]; [reflexivity|]. simpl.
  destruct (p x) eqn:Hp.
  - rewrite (Hpq x Hp). simpl. rewrite Hp. reflexivity.
  - destruct (q x); simpl; [rewrite Hp|]; exact IH.
Qed.

Lemma lookup_set_file k k' w l :
  Csr.lookup_file k (Csr.set_file k' w l) =
  if Csr.key_eqb k' k then Some w else Csr.lookup_file k l.
Proof.
  unfold Csr.lookup_file, Csr.set_file. simpl.
  destruct (Csr.key_eqb k' k) eqn:Hk; [reflexivity|].
  rewrite find_filter_irrelevant; [reflexivity|].
  intros [k2 w2] H. simpl in *. apply key_eqb_spec in H. subst k2.
  destruct (Csr.key_eqb k k') eqn:Hk'; [|reflexivity].
  apply key_eqb_spec in Hk'. subst k'. rewrite (proj2 (key_eqb_spec k k) eq_refl) in Hk.
  discriminate.
Qed.

(** Going up the heads [hs] of a path (nearest first), those missing from
    the directories [ds], up to the first one present: the directories
    [os.makedirs] creates above its target. *)
Fixpoint missing_parents (ds hs : list string) : list string :=
  match hs with
  | [] => []
  | h :: r => if str_in h ds then [] else h :: missing_parents ds r
  end.

Lemma missing_parents_mono (A B : list string) hs x :
  (forall y, str_in y A = true -> str_in y B = true) ->
  In x (missing_parents B hs) -> In x (missing_parents A hs).
Proof.
  intros HAB. induction hs as [|h r IH]; simpl; [tauto|].
  destruct (str_in h B) eqn:HB; [intros []|].
  destruct (str_in h A) eqn:HA; [rewrite (HAB h HA) in HB; discriminate|].
  intros [<-|Hx]; [left; reflexivity|right; apply IH; exact Hx].
Qed.

Lemma str_in_cons x y l : str_in x (y :: l) = String.eqb x y || str_in x l.
Proof. reflexivity. Qed.

Section Rerun.

Variable E : Csr.env.

(** How the destination tree of a state [s2] of a later run stands to the
    one of a state [s1] of an earlier run: the directories of [s1] are in
    [s2], and one of [s2] is in [s1] or can be made by [os.mkdir] with
    the heads [os.makedirs] would make above it from [s1] all in [s2]; a
    file is read-only in both or in neither; a writable file of [s1] is
    writable in [s2]; a writable file of [s2] is writable in [s1], or
    absent from [s1] with a copy into its directory that succeeds. *)
Definition dest_rel (s1 s2 : st) : Prop :=
  (forall d, str_in d (dirs s1) = true -> str_in d (dirs s2) = true) /\
  (forall d, str_in d (dirs s2) = true ->
     str_in d (dirs s1) = true \/
     (Csr.mkdir_ok E d = true /\
      forall h, In h (missing_parents (dirs s1) (rev (Csr.path_heads d))) ->
                str_in h (dirs s2) = true)) /\
  (forall k, Csr.lookup_file k (files s1) = Some false <->
             Csr.lookup_file k (files s2) = Some false) /\
  (forall k, Csr.lookup_file k (files s1) = Some true ->
             Csr.lookup_file k (files s2) = Some true) /\
  (forall k, Csr.lookup_file k (files s2) = Some true ->
             Csr.lookup_file k (files s1) = Some true \/
             (Csr.lookup_file k (files s1) = None /\
              Csr.dir_writable E (fst k) = true /\
              Csr.copy_fault E (fst k) (snd k) = None)).

Lemma dest_rel_refl s : dest_rel s s.
Proof. repeat split; auto. Qed.

(** Two states that agree on the errors, the flag and the copy log, with
    destination trees in [dest_rel]. *)
Definition rel (s1 s2 : st) : Prop :=
  errs s1 = errs s2 /\ found s1 = found s2 /\ copies s1 = copies s2 /\
  dest_rel s1 s2.

(** A computation that, run from related states, gives the same result
    and related states. *)
Definition resp {A} (c : M A) : Prop :=
  forall s1 s2, rel s1 s2 -> fst (c s1) = fst (c s2) /\ rel (snd (c s1)) (snd (c s2)).

Lemma resp_ext {A} (c c' : M A) : (forall s, c s = c' s) -> resp c -> resp c'.
Proof. intros He Hc s1 s2 Hr. rewrite <- !He. apply Hc, Hr. Qed.

Lemma resp_ret {A} (a : A) : resp (ret a).
Proof. intros s1 s2 Hr. split; [reflexivity|exact Hr]. Qed.

Lemma resp_raise {A} (e : py_exc) : resp (A := A) (raise e).
Proof. intros s1 s2 Hr. split; [reflexivity|exact Hr]. Qed.

Lemma resp_bind {A B} (c : M A) (k : A -> M B) :
  resp c -> (forall a, resp (k a)) -> resp (bind c k).
Proof.
  intros Hc Hk s1 s2 Hr. unfold bind.
  destruct (Hc s1 s2 Hr) as [Hf Hr'].
  destruct (c s1) as [r1 s1'], (c s2) as [r2 s2']; simpl in *. subst r2.
  destruct r1 as [a|e]; [apply Hk; exact Hr'|split; [reflexivity|exact Hr']].
Qed.

Lemma resp_catch {A} (c : M A) (h : py_exc -> M A) :
  resp c -> (forall e, resp (h e)) -> resp (catch c h).
Proof.
  intros Hc Hh s1 s2 Hr. unfold catch.
  destruct (Hc s1 s2 Hr) as [Hf Hr'].
  destruct (c s1) as [r1 s1'], (c s2) as [r2 s2']; simpl in *. subst r2.
  destruct r1 as [a|e]; [split; [reflexivity|exact Hr']|apply Hh; exact Hr'].
Qed.

Lemma resp_for_each {A} (l : list A) (f : A -> M unit) :
  (forall x, resp (f x)) -> resp (for_each l f).
Proof.
  intros Hf. induction l as [|x r IH]; simpl.
  - apply resp_ret.
  - apply resp_bind; auto.
Qed.

Lemma resp_handle_error e : resp (handle_error e).
Proof.
  intros s1 s2 (He & Hf & Hc & Hd). unfold handle_error; simpl.
  split; [reflexivity|]. unfold rel; simpl. rewrite He, Hc. auto.
Qed.

(** [os.mkdir] gives the same result from related states. *)
Lemma resp_mkdir p : resp (Csr.mkdir E p).
Proof.
  intros s1 s2 Hr. pose proof Hr as (He & Hf & Hc & Hd1 & Hd2 & Hro & Hrw1 & Hrw2).
  unfold Csr.mkdir. destruct (Csr.mkdir_ok E p) eqn:Hok; [|split; [reflexivity|exact Hr]].
  split; [reflexivity|]. repeat split; simpl; auto.
  - intros x Hx. rewrite ?str_in_cons in Hx |- *. apply orb_true_iff in Hx.
    apply orb_true_iff. destruct Hx as [Hx|Hx]; [left; exact Hx|right; apply Hd1; exact Hx].
  - intros x Hx. rewrite ?str_in_cons in Hx |- *. apply orb_true_iff in Hx.
    destruct Hx as [Hx|Hx]; [left; rewrite Hx; reflexivity|].
    destruct (Hd2 x Hx) as [H|[Hokx Hmp]]; [left; rewrite H, orb_true_r; reflexivity|].
    right. split; [exact Hokx|]. intros h Hh. rewrite ?str_in_cons, orb_true_iff. right.
    apply Hmp. revert Hh. apply missing_parents_mono.
    intros y Hy. rewrite ?str_in_cons, Hy, orb_true_r. reflexivity.
  - apply Hro.
  - apply Hro.
Qed.

(** The earlier run making a directory the later run finds. *)
Lemma rel_mkdir_catch_up p s1 s2 :
  rel s1 s2 -> str_in p (dirs s2) = true -> Csr.mkdir_ok E p = true ->
  Csr.mkdir E p s1 = (Ret tt, mkSt (errs s1) (found s1) (p :: dirs s1) (files s1) (copies s1)) /\
  rel (mkSt (errs s1) (found s1) (p :: dirs s1) (files s1) (copies s1)) s2.
Proof.
  intros Hr Hp Hok. pose proof Hr as (He & Hf & Hc & Hd1 & Hd2 & Hro & Hrw1 & Hrw2).
  unfold Csr.mkdir. rewrite Hok. split; [reflexivity|].
  repeat split; simpl; auto.
  - intros x Hx. rewrite ?str_in_cons in Hx. apply orb_true_iff in Hx.
    destruct Hx as [Hx|Hx]; [apply String.eqb_eq in Hx; subst x; exact Hp|apply Hd1; exact Hx].
  - intros x Hx. destruct (Hd2 x Hx) as [H|[Hokx Hmp]];
      [left; rewrite ?str_in_cons, H, orb_true_r; reflexivity|].
    right. split; [exact Hokx|]. intros h Hh. apply Hmp. revert Hh.
    apply missing_parents_mono. intros y Hy. rewrite ?str_in_cons, Hy, orb_true_r. reflexivity.
  - apply Hro.
  - apply Hro.
Qed.

(** The earlier run, making a directory [name] the later run finds, goes
    through the heads the later run finds and returns. *)
Lemma makedirs_catch_up hs name s1 s2 :
  hs = rev (Csr.path_heads name) -> rel s1 s2 ->
  str_in name (dirs s2) = true -> str_in name (dirs s1) = false ->
  fst (Csr.makedirs_rec E hs name s1) = Ret tt /\
  rel (snd (Csr.makedirs_rec E hs name s1)) s2.
Proof.
  revert name s1. induction hs as [|h r IH]; intros name s1 Hhs Hr H2 H1.
  - pose proof Hr as (_ & _ & _ & _ & Hd2 & _).
    destruct (Hd2 name H2) as [H|[Hok _]]; [congruence|].
    simpl. destruct (rel_mkdir_catch_up name s1 s2 Hr H2 Hok) as [-> Hr']. auto.
  - pose proof Hr as (_ & _ & _ & _ & Hd2 & _).
    destruct (Hd2 name H2) as [H|[Hok Hmp]]; [congruence|].
    rewrite <- Hhs in Hmp. assert (Hr0 := path_heads_last name h r (eq_sym Hhs)).
    rewrite makedirs_rec_cons. unfold bind.
    destruct (str_in h (dirs s1)) eqn:Hh1.
    + unfold ret. destruct (rel_mkdir_catch_up name s1 s2 Hr H2 Hok) as [-> Hr']. auto.
    + assert (Hh2 : str_in h (dirs s2) = true)
        by (apply Hmp; simpl; rewrite Hh1; left; reflexivity).
      destruct (IH h s1 Hr0 Hr Hh2 Hh1) as [Hret Hr1].
      destruct (Csr.makedirs_rec E r h s1) as [r1 s1']. simpl in Hret, Hr1. subst r1.
      destruct (rel_mkdir_catch_up name s1' s2 Hr1 H2 Hok) as [-> Hr']. auto.
Qed.

(** [os.makedirs] gives the same result from related states. *)
Lemma resp_makedirs_rec hs name :
  hs = rev (Csr.path_heads name) -> resp (Csr.makedirs_rec E hs name).
Proof.
  revert name. induction hs as [|h r IH]; intros name Hhs; [apply resp_mkdir|].
  assert (Hr0 := path_heads_last name h r (eq_sym Hhs)).
  intros s1 s2 Hr. rewrite !makedirs_rec_cons.
  pose proof Hr as (_ & _ & _ & Hd1 & _).
  destruct (str_in h (dirs s1)) eqn:H1, (str_in h (dirs s2)) eqn:H2.
  - apply (resp_bind _ _ (resp_ret tt) (fun _ => resp_mkdir name)). exact Hr.
  - rewrite (Hd1 h H1) in H2. discriminate.
  - destruct (makedirs_catch_up r h s1 s2 Hr0 Hr H2 H1) as [Hret Hr1].
    unfold bind, ret. destruct (Csr.makedirs_rec E r h s1) as [r1 s1'].
    simpl in Hret, Hr1. subst r1. apply resp_mkdir. exact Hr1.
  - apply (resp_bind _ _ (IH h Hr0) (fun _ => resp_mkdir name)). exact Hr.
Qed.

(** [if not os.path.isdir(d): os.makedirs(d)], with its handler. *)
Lemma resp_ensure_dir d : resp (Csr.ensure_dir E d).
Proof.
  intros s1 s2 Hr. pose proof Hr as (_ & _ & _ & Hd1 & _).
  unfold Csr.ensure_dir, bind, Csr.is_dir. cbv beta iota.
  destruct (str_in d (dirs s1)) eqn:H1, (str_in d (dirs s2)) eqn:H2.
  - split; [reflexivity|exact Hr].
  - rewrite (Hd1 d H1) in H2. discriminate.
  - unfold catch, Csr.makedirs.
    destruct (makedirs_catch_up _ d s1 s2 eq_refl Hr H2 H1) as [Hret Hr1].
    destruct (Csr.makedirs_rec E (rev (Csr.path_heads d)) d s1) as [r1 s1'].
    simpl in Hret, Hr1. subst r1. split; [reflexivity|exact Hr1].
  - apply resp_catch;
      [unfold Csr.makedirs; apply resp_makedirs_rec; reflexivity
      |intros; apply resp_raise|exact Hr].
Qed.

Lemma rel_same_tree s1 s2 s1' s2' :
  rel s1 s2 ->
  errs s1' = errs s2' -> found s1' = found s2' -> copies s1' = copies s2' ->
  dirs s1' = dirs s1 -> dirs s2' = dirs s2 ->
  files s1' = files s1 -> files s2' = files s2 -> rel s1' s2'.
Proof.
  intros (_ & _ & _ & Hd) H1 H2 H3 H4 H5 H6 H7.
  unfold rel, dest_rel in *. rewrite H4, H5, H6, H7. auto.
Qed.

Lemma resp_copy2 src d f : resp (Csr.copy2 E src d f).
Proof.
  intros s1 s2 Hr.
  pose proof Hr as (He & Hf & Hc & Hd1 & Hd2 & Hro & Hrw1 & Hrw2).
  unfold Csr.copy2. destruct (Csr.src_file E src) as [w|].
  2: { simpl. split; [reflexivity|].
       apply (rel_same_tree s1 s2); simpl; congruence. }
  destruct (negb (Csr.src_readable E src)).
  { simpl. split; [reflexivity|].
    apply (rel_same_tree s1 s2); simpl; congruence. }
  assert (Hwrite : rel (mkSt (errs s1) (found s1) (dirs s1)
                          (Csr.set_file (d, f) w (files s1)) (copies s1 ++ [join d f]))
                       (mkSt (errs s2) (found s2) (dirs s2)
                          (Csr.set_file (d, f) w (files s2)) (copies s2 ++ [join d f]))).
  { unfold rel, dest_rel; simpl.
    split; [exact He|]. split; [exact Hf|]. split; [congruence|].
    split; [exact Hd1|]. split; [exact Hd2|].
    split; [intros k; rewrite !lookup_set_file;
            destruct (Csr.key_eqb (d, f) k); [tauto|apply Hro]|].
    split; [intros k; rewrite !lookup_set_file;
            destruct (Csr.key_eqb (d, f) k); [auto|apply Hrw1]|].
    intros k; rewrite !lookup_set_file.
    destruct (Csr.key_eqb (d, f) k); [intros H; left; exact H|apply Hrw2]. }
  destruct (Csr.lookup_file (d, f) (files s1)) as [[]|] eqn:L1,
           (Csr.lookup_file (d, f) (files s2)) as [[]|] eqn:L2.
  all: try (apply Hro in L1; congruence).
  all: try (apply Hro in L2; congruence).
  all: try (apply Hrw1 in L1; congruence).
  - destruct (Csr.copy_fault E d f); simpl; (split; [reflexivity|]);
      [apply (rel_same_tree s1 s2); simpl; congruence | exact Hwrite].
  - simpl. split; [reflexivity|]. apply (rel_same_tree s1 s2); simpl; congruence.
  - destruct (Hrw2 _ L2) as [H|(_ & Hw & Hnf)]; [congruence|]. simpl in Hw, Hnf.
    rewrite Hw, Hnf. simpl. split; [reflexivity|exact Hwrite].
  - destruct (Csr.dir_writable E d); [destruct (Csr.copy_fault E d f)|]; simpl;
      (split; [reflexivity|]);
      [apply (rel_same_tree s1 s2); simpl; congruence | exact Hwrite
      | apply (rel_same_tree s1 s2); simpl; congruence].
Qed.

Lemma resp_copy_artifact full d f : resp (Csr.copy_artifact E full d f).
Proof.
  unfold Csr.copy_artifact. apply resp_bind; [apply resp_ensure_dir|intros _].
  unfold Csr.write_copy.
  apply resp_bind; [destruct (Csr.dir_writable E d);
    [apply resp_ret|apply resp_handle_error]|intros _].
  apply resp_catch; [apply resp_copy2|].
  intros []; try apply resp_raise. apply resp_handle_error.
Qed.

Create HintDb resp.
#[local] Hint Resolve resp_ret resp_raise resp_handle_error resp_copy2
  resp_copy_artifact : resp.

Ltac resp_step :=
  match goal with
  | |- resp (bind _ _) => apply resp_bind; intros
  | |- resp (catch _ _) => apply resp_catch; intros
  | |- resp (for_each _ _) => apply resp_for_each; intros
  | |- resp (if ?b then _ else _) => destruct b
  | |- resp (match ?x with _ => _ end) => destruct x
  end.

Ltac prove_resp := repeat (resp_step || eauto with resp).

Lemma resp_check_day y m d : resp (Csr.check_day E y m d).
Proof.
  unfold Csr.check_day, Csr.check_job, Csr.check_sub_dir. prove_resp.
Qed.

#[local] Hint Resolve resp_check_day : resp.

Lemma resp_main today y m d cm : resp (Csr.main E today y m d cm).
Proof.
  unfold Csr.main, Csr.check_month. destruct y as [y|]; prove_resp.
Qed.

(** The first run, from the tree [s0] starts with, keeps its tree in
    [dest_rel] with [s0] when every source file it copies is writable. *)
Variable s0 : st.
Hypothesis Hsrc : forall p w, Csr.src_file E p = Some w -> w = true.

Lemma fwd_handle_error e : preserves (dest_rel s0) (handle_error e).
Proof. intros s Hs. exact Hs. Qed.

Lemma fwd_is_dir d : preserves (dest_rel s0) (Csr.is_dir d).
Proof. intros s Hs. exact Hs. Qed.

(** The heads [os.makedirs] would make from [s0] above a directory of
    [s]: all in [s]. *)
Lemma fwd_heads_cover s h r :
  dest_rel s0 s -> str_in h (dirs s) = true -> r = rev (Csr.path_heads h) ->
  forall x, In x (missing_parents (dirs s0) (h :: r)) -> str_in x (dirs s) = true.
Proof.
  intros (_ & Hd2 & _) Hh Hr x. simpl. destruct (str_in h (dirs s0)) eqn:H0; [intros []|].
  intros [<-|Hx]; [exact Hh|].
  destruct (Hd2 h Hh) as [H|[_ Hmp]]; [congruence|]. subst r. apply Hmp, Hx.
Qed.

Lemma fwd_mkdir name s :
  dest_rel s0 s ->
  (forall x, In x (missing_parents (dirs s0) (rev (Csr.path_heads name))) ->
             str_in x (dirs s) = true) ->
  dest_rel s0 (snd (Csr.mkdir E name s)) /\
  (fst (Csr.mkdir E name s) = Ret tt -> str_in name (dirs (snd (Csr.mkdir E name s))) = true).
Proof.
  intros Hs Hcov. pose proof Hs as (Hd1 & Hd2 & Hro & Hrw1 & Hrw2). unfold Csr.mkdir.
  destruct (Csr.mkdir_ok E name) eqn:Hok; simpl; [|split; [exact Hs|discriminate]].
  split; [|intros _; rewrite ?str_in_cons, String.eqb_refl; reflexivity].
  repeat split; simpl; auto; try apply Hro.
  - intros x Hx. rewrite ?str_in_cons, orb_true_iff. right. auto.
  - intros x Hx. rewrite ?str_in_cons in Hx. apply orb_true_iff in Hx. destruct Hx as [Hx|Hx].
    + apply String.eqb_eq in Hx. subst x.
      destruct (str_in name (dirs s0)) eqn:H0; [left; reflexivity|right].
      split; [exact Hok|]. intros h Hh. rewrite ?str_in_cons, orb_true_iff. right. auto.
    + destruct (Hd2 x Hx) as [H|[Hokx Hmp]]; [left; exact H|right].
      split; [exact Hokx|]. intros h Hh. rewrite ?str_in_cons, orb_true_iff. right. auto.
Qed.

Lemma fwd_makedirs_rec hs name s :
  hs = rev (Csr.path_heads name) -> dest_rel s0 s ->
  dest_rel s0 (snd (Csr.makedirs_rec E hs name s)) /\
  (fst (Csr.makedirs_rec E hs name s) = Ret tt ->
   str_in name (dirs (snd (Csr.makedirs_rec E hs name s))) = true).
Proof.
  revert name s. induction hs as [|h r IH]; intros name s Hhs Hs.
  - apply fwd_mkdir; [exact Hs|]. rewrite <- Hhs. intros x [].
  - assert (Hr0 := path_heads_last name h r (eq_sym Hhs)).
    rewrite makedirs_rec_cons. unfold bind.
    destruct (str_in h (dirs s)) eqn:Hh.
    + apply fwd_mkdir; [exact Hs|]. rewrite <- Hhs.
      exact (fwd_heads_cover s h r Hs Hh Hr0).
    + destruct (IH h s Hr0 Hs) as [Hs' Hin].
      destruct (Csr.makedirs_rec E r h s) as [[[]|e] s']; simpl in Hs', Hin;
        [|split; [exact Hs'|discriminate]].
      apply fwd_mkdir; [exact Hs'|]. rewrite <- Hhs.
      exact (fwd_heads_cover s' h r Hs' (Hin eq_refl) Hr0).
Qed.

Lemma fwd_makedirs d : preserves (dest_rel s0) (Csr.makedirs E d).
Proof. intros s Hs. apply (fwd_makedirs_rec _ d s eq_refl Hs). Qed.

Lemma fwd_copy2 src d f : preserves (dest_rel s0) (Csr.copy2 E src d f).
Proof.
  intros s Hs. pose proof Hs as (Hd1 & Hd2 & Hro & Hrw1 & Hrw2). unfold Csr.copy2.
  destruct (Csr.src_file E src) as [w|] eqn:Hw; [|exact Hs].
  rewrite (Hsrc src w Hw).
  destruct (negb (Csr.src_readable E src)); [exact Hs|].
  assert (Hset : Csr.lookup_file (d, f) (files s0) <> Some false ->
                 (Csr.lookup_file (d, f) (files s0) = Some true \/
                  (Csr.lookup_file (d, f) (files s0) = None /\
                   Csr.dir_writable E d = true /\ Csr.copy_fault E d f = None)) ->
                 dest_rel s0 (mkSt (errs s) (found s) (dirs s)
                   (Csr.set_file (d, f) true (files s)) (copies s ++ [join d f]))).
  { intros Hnro Hok. unfold dest_rel; simpl.
    split; [exact Hd1|]. split; [exact Hd2|].
    split.
    { intros k. rewrite lookup_set_file.
      destruct (Csr.key_eqb (d, f) k) eqn:Hk; [|apply Hro].
      apply key_eqb_spec in Hk. subst k. split; intros H; congruence. }
    split.
    { intros k. rewrite lookup_set_file.
      destruct (Csr.key_eqb (d, f) k); [intros _; reflexivity|apply Hrw1]. }
    intros k. rewrite lookup_set_file.
    destruct (Csr.key_eqb (d, f) k) eqn:Hk; [|apply Hrw2].
    apply key_eqb_spec in Hk. subst k. intros _. exact Hok. }
  destruct (Csr.lookup_file (d, f) (files s)) as [[]|] eqn:L.
  - destruct (Csr.copy_fault E d f) eqn:Hf; [exact Hs|].
    apply Hset.
    + intros H. apply Hro in H. congruence.
    + destruct (Hrw2 _ L) as [H|(H1 & H2 & _)]; [left; exact H|right; auto].
  - exact Hs.
  - destruct (Csr.dir_writable E d) eqn:Hdw; [|exact Hs].
    destruct (Csr.copy_fault E d f) eqn:Hf; [exact Hs|].
    apply Hset.
    + intros H. apply Hro in H. congruence.
    + destruct (Csr.lookup_file (d, f) (files s0)) as [[]|] eqn:L0.
      * apply Hrw1 in L0. congruence.
      * apply Hro in L0. congruence.
      * right. auto.
Qed.

Create HintDb rerun.
#[local] Hint Resolve fwd_handle_error fwd_is_dir fwd_makedirs fwd_copy2 : rerun.

Ltac prove_fwd := repeat (preserve_step || eauto with rerun preserve).

Lemma fwd_main today y m d cm : preserves (dest_rel s0) (Csr.main E today y m d cm).
Proof.
  unfold Csr.main, Csr.check_month, Csr.check_day, Csr.check_job,
    Csr.check_sub_dir, Csr.copy_artifact, Csr.ensure_dir, Csr.write_copy.
  destruct y as [y|]; prove_fwd.
Qed.

End Rerun.

Definition csr_env_one_sat (w : bool) : Csr.env :=
  Csr.mkEnv (fun _ => true)
    (fun p => if String.eqb p (join Csr.CSR_path "consolidation_backups")
              then ["sat1"] else [])
    (fun _ => Some w) (fun _ => true) (fun _ => true) (fun _ => true) (fun _ _ => None).

Definition day_args : Csr.args := Csr.mkArgs (Some 2024) (Csr.MM 6) (Some 5).

(** C9 counterexample: a read-only source file.  The first run copies it
    without error, and [copy2] gives the copy the source's read-only mode;
    the second run with the same arguments cannot open that copy for
    writing, records "Unable to copy file. [Errno 13] Permission denied"
    and exits with status 1. *)
Lemma readonly_source_second_run_fails :
  let o1 := Csr.run (csr_env_one_sat false) (mkDate 2024 6 10) day_args [] [] in
  let o2 := Csr.run (csr_env_one_sat false) (mkDate 2024 6 10) day_args
              (dirs (final o1)) (files (final o1)) in
  recorded o1 = [] /\ code o1 = 0 /\
  recorded o2 =
    ["Unable to copy file. " ++
     ("[Errno 13] Permission denied: '" ++
      join (join (join Csr.dest_path "consolidation_backups") "sat1") "20240605.txt"
      ++ "'") ++ nl] /\
  code o2 = 1.
Proof. vm_compute. repeat split. Qed.

(** C9 (amended): when every present source file is writable by its
    owner, a second run with the same arguments and the same date of
    today, over the same source tree and starting from the destination
    tree the first run left, records the same errors, sends the same
    emails, exits with the same status and attempts the same copies, in
    the same order: the copier does not look for an existing copy, and
    copying over an earlier copy is not an error. *)
Theorem rerun_same_errors (E : Csr.env) (today : date) (a : Csr.args)
  (ds : list string) (fs : list ((string * string) * bool))
  (Hsrc : forall p w, Csr.src_file E p = Some w -> w = true) :
  let o1 := Csr.run E today a ds fs in
  let o2 := Csr.run E today a (dirs (final o1)) (files (final o1)) in
  recorded o2 = recorded o1 /\ sent o2 = sent o1 /\ code o2 = code o1 /\
  copies (final o2) = copies (final o1).
Proof.
  intros o1 o2. subst o1 o2. unfold Csr.run.
  destruct (Csr.get_args a today) as [c|y m d cm]; [simpl; auto|].
  set (s0 := st0 ds fs).
  pose proof (fwd_main E s0 Hsrc today y m d cm s0 (dest_rel_refl E s0)) as Hfwd.
  destruct (Csr.main E today y m d cm s0) as [r1 s1] eqn:R1. simpl in Hfwd.
  assert (Hfin : final (Csr.finish (r1, s1)) = s1).
  { unfold Csr.finish, Csr.notify. destruct r1; [destruct (found s1)|]; reflexivity. }
  rewrite Hfin.
  assert (Hr : rel E s0 (st0 (dirs s1) (files s1)))
    by (split; [reflexivity|]; split; [reflexivity|]; split; [reflexivity|exact Hfwd]).
  destruct (resp_main E today y m d cm s0 _ Hr) as [Hres Hrel].
  rewrite R1 in Hres, Hrel. simpl in Hres, Hrel.
  destruct (Csr.main E today y m d cm (st0 (dirs s1) (files s1))) as [r2 s2].
  simpl in Hres, Hrel. subst r2. destruct Hrel as (He & Hf & Hc & _).
  unfold Csr.finish, Csr.notify. destruct r1; [rewrite Hf; destruct (found s2)|]; simpl;
    rewrite ?He, ?Hc; auto.
Qed.

Lemma rerun_same_errors_witness :
  (forall p w, Csr.src_file (csr_env_one_sat true) p = Some w -> w = true) /\
  recorded (Csr.run (csr_env_one_sat true) (mkDate 2024 6 10) day_args
              (dirs (final (Csr.run (csr_env_one_sat true) (mkDate 2024 6 10) day_args [] [])))
              (files (final (Csr.run (csr_env_one_sat true) (mkDate 2024 6 10) day_args [] []))))
  = recorded (Csr.run (csr_env_one_sat true) (mkDate 2024 6 10) day_args [] []).
Proof.
  assert (H : forall p w, Csr.src_file (csr_env_one_sat true) p = Some w -> w = true)
    by (simpl; intros p w Hw; injection Hw; auto).
  split; [exact H|].
  exact (proj1 (rerun_same_errors (csr_env_one_sat true) (mkDate 2024 6 10) day_args [] [] H)).
Defined.

(** ** C10 *)

Definition mcs_env_no_dir : Mcs.env :=
  Mcs.mkEnv (inl ["p1_nova"]) (fun _ => false) (fun _ => false) (fun _ => []) (fun _ => None)
            (fun p => "[Errno 2] No such file or directory: '" ++ p ++ "'") 0.

(** C10 counterexample: when the provider's directory is missing too, the
    first error of the missing file is the directory error, and no
    file-does-not-exist error is recorded. *)
Lemma missing_dir_no_file_error :
  recorded (Mcs.run mcs_env_no_dir "host" "20240605" (Mcs.mkArgs 2024 6 5 false false)) =
  [Mcs.header "20240605" "host";
   Mcs.dir_missing_msg "/opt/ibm/sccm/samples/logs/collectors/nova_compute/p1_nova";
   Mcs.read_error_msg
     "/opt/ibm/sccm/samples/logs/collectors/nova_compute/p1_nova/20240605.txt"
     "[Errno 2] No such file or directory: '/opt/ibm/sccm/samples/logs/collectors/nova_compute/p1_nova/20240605.txt'";
   Mcs.missing_msg "00:00:00" "nova_compute" "p1_nova";
   Mcs.trailer "20240605"].
Proof. reflexivity. Qed.

Lemma filter_not_in_nil (l : list string) :
  filter (fun hr => negb (str_in hr [])) l = l.
Proof.
  induction l as [|x r IH]; [reflexivity|].
  change (x :: filter (fun hr => negb (str_in hr [])) r = x :: r).
  rewrite IH. reflexivity.
Qed.

(** C10 (amended): for a provider classified as nova, or as cinder without
    "VMWARE" in its name, whose expected file is not a regular file, the
    iteration records 2 + H errors, H being the number of expected hour
    buckets: first the file-does-not-exist error when the provider's
    directory exists (the directory-does-not-exist error otherwise), then
    the error of the attempt to open the file, then one missing-entries
    error per expected bucket. *)
Theorem missing_file_errors (E : Mcs.env) (fd : string) (ad un : bool)
  (process : option string) (provider : string) (s : st)
  (Hcls : ends_with "_nova" provider = true \/
          (ends_with "_cinder" provider = true /\ contains "VMWARE" provider = false))
  (Hfile : Mcs.is_file E
             (join (join (join Mcs.COLLECTOR_LOGS
                      (if ends_with "_nova" provider then "nova_compute" else "cinder_volume"))
                      provider) (fd ++ ".txt")) = false) :
  let p := if ends_with "_nova" provider then "nova_compute" else "cinder_volume" in
  let dir := join (join Mcs.COLLECTOR_LOGS p) provider in
  let full := join dir (fd ++ ".txt") in
  let hours := Mcs.comparison_hours ad un (Mcs.utc_hour E) in
  Mcs.check_provider E fd ad un process provider s =
  (Ret (Some p),
   mkSt (app (errs s)
           ((if Mcs.path_exists E dir then Mcs.file_missing_msg full
             else Mcs.dir_missing_msg dir)
            :: Mcs.read_error_msg full (Mcs.open_error E full)
            :: map (fun hr => Mcs.missing_msg hr p provider) hours))
        true (dirs s) (files s) (copies s)) /\
  List.length (errs (snd (Mcs.check_provider E fd ad un process provider s))) =
  (List.length (errs s) + 2 + List.length hours)%nat.
Proof.
  intros p dir full hours.
  assert (Hstep : Mcs.check_provider E fd ad un process provider s =
    (Ret (Some p),
     mkSt (app (errs s)
             ((if Mcs.path_exists E dir then Mcs.file_missing_msg full
               else Mcs.dir_missing_msg dir)
              :: Mcs.read_error_msg full (Mcs.open_error E full)
              :: map (fun hr => Mcs.missing_msg hr p provider) hours))
          true (dirs s) (files s) (copies s))).
  { assert (Hc : Mcs.classify provider process = ret (Mcs.Proc (Some p))).
    { unfold Mcs.classify, p.
      destruct (ends_with "_nova" provider) eqn:Hn; [reflexivity|].
      destruct Hcls as [Hn'|[Hc Hv]]; [discriminate|].
      rewrite Hc, Hv. reflexivity. }
    destruct (Mcs.path_exists E dir) eqn:Hp.
    all: unfold Mcs.check_provider; unfold bind at 1; rewrite Hc; unfold ret.
    all: cbn -[Mcs.check_file]; unfold bind.
    all: unfold Mcs.check_file; fold dir; fold full.
    all: unfold bind, Mcs.read_file.
    all: assert (Hf' : Mcs.is_file E full = false) by exact Hfile.
    all: rewrite Hf', Hp.
    all: cbv beta iota zeta delta [handle_error bind ret].
    all: rewrite report_missing_spec, filter_not_in_nil.
    all: cbv beta iota zeta; cbn [errs found dirs files copies orb].
    all: rewrite <- ?app_assoc; reflexivity. }
  split; [exact Hstep|].
  rewrite Hstep. simpl. rewrite length_app. simpl. rewrite length_map. lia.
Qed.

Lemma missing_file_errors_witness :
  (ends_with "_nova" "p1_nova" = true \/
   (ends_with "_cinder" "p1_nova" = true /\ contains "VMWARE" "p1_nova" = false)) /\
  List.length (errs (snd (Mcs.check_provider mcs_env_no_dir "20240605" false true None
                            "p1_nova" (st0 [] [])))) = 3%nat.
Proof.
  split; [left; reflexivity|].
  exact (proj2 (missing_file_errors mcs_env_no_dir "20240605" false true None "p1_nova"
                  (st0 [] []) (or_introl eq_refl) eq_refl)).
Defined.
(** * Further properties of the checkers *)

(** ** csr_checker.py *)

(** The paths [check_day] builds for a job and one of its sub-directories. *)
Definition csr_src_path (y m d : Z) (j sub : string) : string :=
  join (join (join Csr.CSR_path j) sub) (fmt_date y m d ++ ".txt").

Definition csr_dest_dir (j sub : string) : string := join (join Csr.dest_path j) sub.

(** [not l] on a list. *)
Lemma is_nil_app {A} (a b : list A) : is_nil (a ++ b) = is_nil a && is_nil b.
Proof. destruct a; reflexivity. Qed.

(** A loop whose iterations only record errors. *)
Lemma for_each_only_errors {A} (l : list A) (f : A -> M unit) (msgs : A -> list string) :
  (forall x s, In x l ->
     f x s = (Ret tt, mkSt (errs s ++ msgs x) (found s || negb (is_nil (msgs x)))
                           (dirs s) (files s) (copies s))) ->
  forall s, for_each l f s =
    (Ret tt, mkSt (errs s ++ flat_map msgs l) (found s || negb (is_nil (flat_map msgs l)))
                  (dirs s) (files s) (copies s)).
Proof.
  intros Hf. induction l as [|x r IH]; intros s; simpl.
  - unfold ret. destruct s; simpl. rewrite app_nil_r, orb_false_r. reflexivity.
  - unfold bind. rewrite Hf by (left; reflexivity).
    rewrite IH by (intros; apply Hf; right; assumption). simpl.
    rewrite app_assoc, is_nil_app, negb_andb, orb_assoc. reflexivity.
Qed.

Lemma flat_map_single {A B} (g : A -> B) (l : list A) :
  flat_map (fun x => [g x]) l = map g l.
Proof. induction l as [|x r IH]; simpl; [reflexivity|rewrite IH; reflexivity]. Qed.

Lemma for_each_in_preserves P {A} (l : list A) (f : A -> M unit) :
  (forall x, In x l -> preserves P (f x)) -> preserves P (for_each l f).
Proof.
  induction l as [|x r IH]; intros Hf; simpl.
  - apply preserves_ret.
  - apply preserves_bind; [apply Hf; left; reflexivity|].
    intros _. apply IH. intros y Hy. apply Hf. right. exact Hy.
Qed.

(** A loop whose iterations record no error and append to the copy log,
    keeping an invariant [Q] of the state. *)
Lemma for_each_only_copies {A} (Q : st -> Prop) (l : list A) (f : A -> M unit)
  (cs : A -> list string) :
  (forall x s, In x l -> Q s ->
     fst (f x s) = Ret tt /\ errs (snd (f x s)) = errs s /\
     found (snd (f x s)) = found s /\ copies (snd (f x s)) = (copies s ++ cs x)%list /\
     Q (snd (f x s))) ->
  forall s, Q s ->
     fst (for_each l f s) = Ret tt /\ errs (snd (for_each l f s)) = errs s /\
     found (snd (for_each l f s)) = found s /\
     copies (snd (for_each l f s)) = (copies s ++ flat_map cs l)%list /\
     Q (snd (for_each l f s)).
Proof.
  intros Hf. induction l as [|x r IH]; intros s Hs; simpl.
  - rewrite app_nil_r. auto.
  - unfold bind. destruct (Hf x s (or_introl eq_refl) Hs) as (Hr & He & Hfo & Hc & HQ).
    destruct (f x s) as [[[]|e] s'] eqn:Ef; simpl in *; [|discriminate].
    destruct (IH (fun y s0 Hy => Hf y s0 (or_intror Hy)) s' HQ) as (Hr' & He' & Hfo' & Hc' & HQ').
    rewrite Hc', Hc, <- app_assoc. repeat split; congruence.
Qed.

(** When no day is given, the run checks every day of one month, in order:
    the month of [-y]/[-m] for a year in 1..9999, or the previous month for
    [-m PREMON], whatever the [-y] argument.  For a non-zero year outside
    1..9999, [calendar.monthrange] raises [ValueError]: the run checks no
    day, records no error and exits with 1. *)
Theorem csr_month_mode_checks_every_day (E : Csr.env) (today : date)
  (ds : list string) (fs : list ((string * string) * bool)) :
  (forall y m, 1 <= y <= 9999 -> 1 <= m <= 12 ->
     Csr.run E today (Csr.mkArgs (Some y) (Csr.MM m) None) ds fs =
     Csr.finish (check_dates E (map (fun k => (y, m, k))
                                  (Csr.days_upto (days_in_month y m))) (st0 ds fs))) /\
  (forall y m, y <> 0 -> (y < 1 \/ 9999 < y) -> 1 <= m <= 12 ->
     Csr.run E today (Csr.mkArgs (Some y) (Csr.MM m) None) ds fs =
     mkOutcome [] 1 [] (st0 ds fs)) /\
  (forall y, 2 <= dy today <= 9999 -> 1 <= dm today <= 12 ->
     let lm := last_month today in
     Csr.run E today (Csr.mkArgs y Csr.PREMON None) ds fs =
     Csr.finish (check_dates E (map (fun k => (dy lm, dm lm, k))
                                  (Csr.days_upto (days_in_month (dy lm) (dm lm))))
                   (st0 ds fs))).
Proof.
  split; [|split].
  - intros y m Hy Hm. unfold Csr.run, Csr.get_args. cbn [Csr.a_month Csr.a_day Csr.a_year].
    assert (Hmo : (1 <=? m) && (m <=? 12) = true)
      by (apply andb_true_iff; split; apply Z.leb_le; lia).
    rewrite Hmo. cbn [andb negb]. unfold Csr.main.
    rewrite (proj2 (Z.eqb_neq y 0)) by lia.
    unfold Csr.check_month, Csr.month_plan, check_dates.
    rewrite monthrange_days_ok by lia. rewrite for_each_map.
    reflexivity.
  - intros y m Hy0 Hy Hm. unfold Csr.run, Csr.get_args. cbn [Csr.a_month Csr.a_day Csr.a_year].
    assert (Hmo : (1 <=? m) && (m <=? 12) = true)
      by (apply andb_true_iff; split; apply Z.leb_le; lia).
    rewrite Hmo. cbn [andb negb]. unfold Csr.main.
    rewrite (proj2 (Z.eqb_neq y 0) Hy0).
    unfold Csr.check_month, Csr.month_plan, monthrange_days.
    rewrite Hmo. cbn [negb].
    assert (Hyo : (1 <=? y) && (y <=? 9999) = false)
      by (apply andb_false_iff; destruct Hy; [left|right]; apply Z.leb_gt; lia).
    rewrite Hyo. reflexivity.
  - intros y Hy Hm lm. unfold Csr.run, Csr.get_args. cbn [Csr.a_month Csr.a_day Csr.a_year andb negb].
    unfold Csr.main.
    pose proof (last_month_year today) as Hly. pose proof (last_month_month today Hm) as Hlm.
    assert (H0 : Z.eqb (dy (last_month today)) 0 = false) by (apply Z.eqb_neq; lia).
    rewrite H0. unfold Csr.check_month, Csr.month_plan, check_dates.
    rewrite monthrange_days_ok by lia. rewrite for_each_map.
    reflexivity.
Qed.

Lemma csr_month_mode_checks_every_day_witness :
  (1 <= 2023 <= 9999 /\ 1 <= 2 <= 12) /\
  Csr.run csr_env_backups_missing (mkDate 2024 3 15) (Csr.mkArgs (Some 2023) (Csr.MM 2) None) [] [] =
  Csr.finish (check_dates csr_env_backups_missing
    (map (fun k => (2023, 2, k)) (Csr.days_upto (days_in_month 2023 2))) (st0 [] [])) /\
  Csr.run csr_env_backups_missing (mkDate 2024 3 15) (Csr.mkArgs (Some 10000) (Csr.MM 2) None) [] [] =
  mkOutcome [] 1 [] (st0 [] []).
Proof.
  split; [lia|]. split.
  - apply (proj1 (csr_month_mode_checks_every_day csr_env_backups_missing (mkDate 2024 3 15) [] []));
      lia.
  - apply (proj1 (proj2 (csr_month_mode_checks_every_day csr_env_backups_missing
                           (mkDate 2024 3 15) [] []))); lia.
Defined.

(** A month given without a year, or with the year 0 (false in Python),
    checks nothing: with a day the date validation fails ([int(None)]
    raises) and the run exits with 2; without a day [main] does nothing and
    the run exits with 0 without recording an error. *)
Theorem csr_no_year_checks_nothing (E : Csr.env) (today : date) (y : option Z) (m : Z)
  (dopt : option Z) (ds : list string) (fs : list ((string * string) * bool))
  (Hy : y = None \/ y = Some 0) (Hm : 1 <= m <= 12)
  (Hd : forall d, dopt = Some d -> 1 <= d <= 31) :
  Csr.run E today (Csr.mkArgs y (Csr.MM m) dopt) ds fs =
  mkOutcome [] (if dopt then 2 else 0) [] (st0 ds fs).
Proof.
  unfold Csr.run, Csr.get_args. cbn [Csr.a_month Csr.a_day Csr.a_year].
  assert (Hmo : (1 <=? m) && (m <=? 12) = true)
    by (apply andb_true_iff; split; apply Z.leb_le; lia).
  rewrite Hmo. destruct dopt as [d|].
  - assert (Hdo : (1 <=? d) && (d <=? 31) = true).
    { destruct (Hd d eq_refl). apply andb_true_iff; split; apply Z.leb_le; lia. }
    rewrite Hdo. cbn [andb negb].
    destruct Hy as [-> | ->]; reflexivity.
  - cbn [andb negb]. destruct Hy as [-> | ->]; reflexivity.
Qed.

Lemma csr_no_year_checks_nothing_witness :
  (@None Z = None \/ @None Z = Some 0) /\ 1 <= 3 <= 12 /\
  Csr.run csr_env_backups_missing (mkDate 2024 3 15) (Csr.mkArgs None (Csr.MM 3) (Some 20)) [] [] =
  mkOutcome [] 2 [] (st0 [] []).
Proof.
  split; [left; reflexivity|]. split; [lia|].
  apply (csr_no_year_checks_nothing csr_env_backups_missing (mkDate 2024 3 15) None 3 (Some 20));
    [left; reflexivity|lia|].
  intros d Hd. injection Hd as <-. lia.
Defined.

Lemma check_sub_dirs_missing E y m d j (l : list string) s :
  datetime_valid y m d = true -> 1900 <= y -> (forall p, Csr.src_file E p = None) ->
  for_each l (Csr.check_sub_dir E y m d j) s =
  (Ret tt, mkSt (errs s ++ flat_map (fun sub => ["File not found: " ++ csr_src_path y m d j sub]) l)
                (found s || negb (is_nil (flat_map (fun sub =>
                   ["File not found: " ++ csr_src_path y m d j sub]) l)))
                (dirs s) (files s) (copies s)).
Proof.
  intros Hv Hy Hsrc. apply for_each_only_errors. intros sub s' _.
  unfold Csr.check_sub_dir. rewrite Hv. cbn [negb].
  rewrite (proj2 (Z.ltb_ge y 1900) Hy). rewrite Hsrc.
  unfold handle_error. cbn [is_nil negb]. rewrite orb_true_r. reflexivity.
Qed.

(** When every job root exists but no CSR file is present, checking a day
    of a valid date from 1900 on (the years [strftime] accepts) records
    one "File not found" error per sub-directory, job after job and in the
    order of [os.walk], copies nothing and leaves the destination tree as
    it was. *)
Theorem csr_day_all_files_missing (E : Csr.env) (y m d : Z) (s : st)
  (Hv : datetime_valid y m d = true) (Hy : 1900 <= y)
  (Hjobs : forall j, In j Csr.job_names -> Csr.job_exists E (join Csr.CSR_path j) = true)
  (Hsrc : forall p, Csr.src_file E p = None) :
  let missing := flat_map (fun j => map (fun sub => "File not found: " ++ csr_src_path y m d j sub)
                                        (Csr.walk_dirs E (join Csr.CSR_path j)))
                          Csr.job_names in
  Csr.check_day E y m d s =
  (Ret tt, mkSt (errs s ++ missing) (found s || negb (is_nil missing))
                (dirs s) (files s) (copies s)).
Proof.
  intros missing. unfold Csr.check_day. apply for_each_only_errors.
  intros j s' Hj. unfold Csr.check_job. rewrite (Hjobs j Hj).
  rewrite check_sub_dirs_missing by assumption.
  rewrite flat_map_single. reflexivity.
Qed.

Definition csr_env_no_files : Csr.env :=
  Csr.mkEnv (fun _ => true) (fun _ => ["sat1"; "sat2"]) (fun _ => None)
    (fun _ => true) (fun _ => true) (fun _ => true) (fun _ _ => None).

Lemma csr_day_all_files_missing_witness :
  (datetime_valid 2024 6 5 = true /\ 1900 <= 2024 /\
   (forall j, In j Csr.job_names -> Csr.job_exists csr_env_no_files (join Csr.CSR_path j) = true) /\
   (forall p, Csr.src_file csr_env_no_files p = None)) /\
  List.length (errs (snd (Csr.check_day csr_env_no_files 2024 6 5 (st0 [] [])))) = 6%nat.
Proof.
  assert (Hv : datetime_valid 2024 6 5 = true) by reflexivity.
  assert (Hj : forall j, In j Csr.job_names ->
                 Csr.job_exists csr_env_no_files (join Csr.CSR_path j) = true)
    by (intros; reflexivity).
  assert (Hs : forall p, Csr.src_file csr_env_no_files p = None) by (intros; reflexivity).
  assert (Hy : 1900 <= 2024) by lia.
  split; [split; [exact Hv|split; [exact Hy|split; [exact Hj|exact Hs]]]|].
  rewrite (csr_day_all_files_missing csr_env_no_files 2024 6 5 (st0 [] []) Hv Hy Hj Hs).
  vm_compute. reflexivity.
Defined.

(** No file of the destination tree is read-only. *)
Definition no_readonly (s : st) : Prop :=
  forall k, Csr.lookup_file k (files s) <> Some false.

(** For a valid date from 1900 on, when every job root exists, every CSR
    file is present, readable and writable, every directory can be
    created by [os.mkdir] and is writable, no copy faults, and no
    destination file is read-only, a day check records no error and
    attempts exactly one copy per sub-directory, job after job and in the
    order of [os.walk]. *)
Theorem csr_day_clean_copies (E : Csr.env) (y m d : Z) (s : st)
  (Hv : datetime_valid y m d = true) (Hy : 1900 <= y)
  (Hjobs : forall j, In j Csr.job_names -> Csr.job_exists E (join Csr.CSR_path j) = true)
  (Hsrc : forall j sub, Csr.src_file E (csr_src_path y m d j sub) = Some true)
  (Hrd : forall p, Csr.src_readable E p = true)
  (Hmk : forall dir, Csr.mkdir_ok E dir = true)
  (Hw : forall dir, Csr.dir_writable E dir = true)
  (Hf : forall dir f, Csr.copy_fault E dir f = None)
  (Hro : no_readonly s) :
  fst (Csr.check_day E y m d s) = Ret tt /\
  errs (snd (Csr.check_day E y m d s)) = errs s /\
  found (snd (Csr.check_day E y m d s)) = found s /\
  copies (snd (Csr.check_day E y m d s)) =
    app (copies s) (flat_map (fun j => map (fun sub => join (csr_dest_dir j sub) (fmt_date y m d ++ ".txt"))
                                       (Csr.walk_dirs E (join Csr.CSR_path j)))
                         Csr.job_names).
Proof.
  assert (Hstep : forall j sub s, no_readonly s ->
     fst (Csr.check_sub_dir E y m d j sub s) = Ret tt /\
     errs (snd (Csr.check_sub_dir E y m d j sub s)) = errs s /\
     found (snd (Csr.check_sub_dir E y m d j sub s)) = found s /\
     copies (snd (Csr.check_sub_dir E y m d j sub s)) =
       app (copies s) [join (csr_dest_dir j sub) (fmt_date y m d ++ ".txt")] /\
     no_readonly (snd (Csr.check_sub_dir E y m d j sub s))).
  { intros j sub s0 H0. unfold Csr.check_sub_dir. rewrite Hv. cbn [negb].
    rewrite (proj2 (Z.ltb_ge y 1900) Hy).
    fold (csr_src_path y m d j sub). rewrite Hsrc. fold (csr_dest_dir j sub).
    set (dd0 := csr_dest_dir j sub). set (fn := fmt_date y m d ++ ".txt").
    assert (Hcp : forall s1, no_readonly s1 ->
      Csr.copy2 E (csr_src_path y m d j sub) dd0 fn s1 =
      (Ret tt, mkSt (errs s1) (found s1) (dirs s1) (Csr.set_file (dd0, fn) true (files s1))
                    (copies s1 ++ [join dd0 fn]))).
    { intros s1 H1. unfold Csr.copy2. rewrite Hsrc, Hf, Hrd.
      destruct (Csr.lookup_file (dd0, fn) (files s1)) as [[]|] eqn:L.
      - reflexivity.
      - exfalso. exact (H1 _ L).
      - rewrite Hw. reflexivity. }
    destruct (ensure_dir_ok E dd0 s0) as (D & Hed & _ & _).
    { intros _. unfold Csr.makedirs. apply makedirs_rec_ok. intros; apply Hmk. }
    unfold Csr.copy_artifact, bind. rewrite Hed.
    unfold Csr.write_copy, bind, ret, catch. rewrite Hw. rewrite Hcp by exact H0.
    simpl. repeat split; auto.
    all: unfold no_readonly; simpl; intros k; rewrite lookup_set_file;
         destruct (Csr.key_eqb (dd0, fn) k);
         [discriminate|apply H0]. }
  destruct (for_each_only_copies no_readonly Csr.job_names (Csr.check_job E y m d)
     (fun j => map (fun sub => join (csr_dest_dir j sub) (fmt_date y m d ++ ".txt"))
                   (Csr.walk_dirs E (join Csr.CSR_path j))))
    with (s := s) as (H1 & H2 & H3 & H4 & _); [|exact Hro|].
  - intros j s0 Hj H0. unfold Csr.check_job. rewrite (Hjobs j Hj).
    rewrite <- flat_map_single.
    apply (for_each_only_copies no_readonly _ (Csr.check_sub_dir E y m d j)
             (fun sub => [join (csr_dest_dir j sub) (fmt_date y m d ++ ".txt")])).
    + intros sub s1 _ Hs1. apply Hstep. exact Hs1.
    + exact H0.
  - unfold Csr.check_day. auto.
Qed.

Definition csr_env_all_present : Csr.env :=
  Csr.mkEnv (fun _ => true) (fun _ => ["sat1"; "sat2"]) (fun _ => Some true)
    (fun _ => true) (fun _ => true) (fun _ => true) (fun _ _ => None).

Lemma csr_day_clean_copies_witness :
  no_readonly (st0 [] []) /\ 1900 <= 2024 /\
  errs (snd (Csr.check_day csr_env_all_present 2024 6 5 (st0 [] []))) = [].
Proof.
  assert (H : no_readonly (st0 [] [])) by (intros k; discriminate).
  assert (Hy : 1900 <= 2024) by lia.
  split; [exact H|split; [exact Hy|]].
  exact (proj1 (proj2 (csr_day_clean_copies csr_env_all_present 2024 6 5 (st0 [] [])
    eq_refl Hy (fun _ _ => eq_refl) (fun _ _ => eq_refl) (fun _ => eq_refl) (fun _ => eq_refl)
    (fun _ => eq_refl) (fun _ _ => eq_refl) H))).
Defined.

(** A destination the copier of [check_day] may write for the date
    [y m d]: [dest_path/<job>/<sub-directory>/<YYYYMMDD>.txt], for a job
    of [job_names] and one of its sub-directories. *)
Definition dest_target (E : Csr.env) (y m d : Z) (dir file : string) : Prop :=
  exists j sub, In j Csr.job_names /\ In sub (Csr.walk_dirs E (join Csr.CSR_path j)) /\
    dir = csr_dest_dir j sub /\ file = fmt_date y m d ++ ".txt".

(** What a state [s'] reached from [s] has written: copies attempted and
    files changed only at such destinations, directories created only
    for such a destination directory or one of its parents. *)
Definition writes_within (E : Csr.env) (y m d : Z) (s s' : st) : Prop :=
  (exists l, copies s' = (copies s ++ l)%list /\
     Forall (fun c => exists dir file, dest_target E y m d dir file /\ c = join dir file) l) /\
  (forall x, str_in x (dirs s') = true ->
     str_in x (dirs s) = true \/
     exists dir file, dest_target E y m d dir file /\
       (x = dir \/ In x (Csr.path_heads dir))) /\
  (forall k, Csr.lookup_file k (files s') <> Csr.lookup_file k (files s) ->
     dest_target E y m d (fst k) (snd k)).

(** Checking a day writes nothing outside the destinations of its own
    date: every copy it attempts and every destination file it changes is
    [dest_path/<job>/<sub>/<YYYYMMDD>.txt] for one of the three jobs and a
    sub-directory of that job's CSR root; every directory it creates is
    such a [dest_path/<job>/<sub>] or one of its parents, which
    [os.makedirs] creates when missing. *)
Theorem csr_day_writes_within_dest (E : Csr.env) (y m d : Z) (s : st) :
  writes_within E y m d s (snd (Csr.check_day E y m d s)).
Proof.
  assert (Hrefl : writes_within E y m d s s).
  { split; [exists []; rewrite app_nil_r; split; [reflexivity|constructor]|].
    split; [left; assumption|]. intros k Hk. congruence. }
  enough (Hp : preserves (writes_within E y m d s) (Csr.check_day E y m d))
    by exact (Hp s Hrefl).
  unfold Csr.check_day. apply for_each_in_preserves. intros j Hj.
  unfold Csr.check_job. destruct (Csr.job_exists E (join Csr.CSR_path j)).
  2: { intros s1 H1. exact H1. }
  apply for_each_in_preserves. intros sub Hsub.
  unfold Csr.check_sub_dir. destruct (negb (datetime_valid y m d)); [apply preserves_raise|].
  destruct (y <? 1900); [apply preserves_raise|].
  destruct (Csr.src_file E _); [|intros s1 H1; exact H1].
  assert (Ht : dest_target E y m d (join (join Csr.dest_path j) sub) (fmt_date y m d ++ ".txt"))
    by (exists j, sub; auto).
  unfold Csr.copy_artifact, Csr.ensure_dir, Csr.write_copy.
  apply preserves_bind.
  { apply preserves_bind; [intros s1 H1; exact H1|intros isd].
    destruct isd; [apply preserves_ret|].
    apply preserves_catch; [|intros; apply preserves_raise].
    intros s1 (Hc & Hd & Hfl). unfold Csr.makedirs.
    destruct (makedirs_rec_shape E (rev (Csr.path_heads (join (join Csr.dest_path j) sub)))
                (join (join Csr.dest_path j) sub) s1) as (C & Hsn & HC & _).
    rewrite Hsn. split; [exact Hc|]. split; [|exact Hfl]. simpl. intros x Hx.
    unfold str_in in Hx. rewrite existsb_app in Hx. apply orb_true_iff in Hx.
    destruct Hx as [Hx|Hx]; [|apply Hd; exact Hx].
    apply existsb_exists in Hx. destruct Hx as (x' & Hx' & Hxx).
    apply String.eqb_eq in Hxx. subst x'. right. do 2 eexists. split; [exact Ht|].
    destruct (HC x Hx') as [Hx|Hx]; [left; exact Hx|right; apply in_rev; exact Hx]. }
  intros _. apply preserves_bind.
  { destruct (Csr.dir_writable E _); [apply preserves_ret|]. intros s1 H1; exact H1. }
  intros _. apply preserves_catch.
  2: { intros []; try apply preserves_raise. intros s1 H1; exact H1. }
  intros s1 ((l & Hc & Hl) & Hd & Hfl). unfold Csr.copy2.
  set (tgt := join (join (join Csr.dest_path j) sub) (fmt_date y m d ++ ".txt")).
  assert (Hcp : exists l', (copies s1 ++ [tgt])%list = (copies s ++ l')%list /\
     Forall (fun c => exists dir file, dest_target E y m d dir file /\ c = join dir file) l').
  { exists (l ++ [tgt])%list. rewrite Hc, app_assoc. split; [reflexivity|].
    apply Forall_app. split; [exact Hl|]. constructor; [|constructor].
    do 2 eexists. split; [exact Ht|reflexivity]. }
  assert (Hset : forall w, forall k,
     Csr.lookup_file k (Csr.set_file (join (join Csr.dest_path j) sub, fmt_date y m d ++ ".txt") w
                          (files s1)) <> Csr.lookup_file k (files s) ->
     dest_target E y m d (fst k) (snd k)).
  { intros w k Hk. rewrite lookup_set_file in Hk.
    destruct (Csr.key_eqb _ k) eqn:Hkk; [|apply Hfl; exact Hk].
    apply key_eqb_spec in Hkk. subst k. exact Ht. }
  destruct (Csr.src_file E _) as [w|];
    [destruct (negb (Csr.src_readable E _));
     [|destruct (Csr.lookup_file _ (files s1)) as [[]|];
       [destruct (Csr.copy_fault E _ _)| |destruct (Csr.dir_writable E _);
          [destruct (Csr.copy_fault E _ _)|]]]|].
  all: simpl; split; [exact Hcp|split; [exact Hd|]]; simpl.
  all: first [exact Hfl | apply Hset].
Qed.

(** ** findMissingCSR.py *)

Lemma add_unique_str_in x l xs :
  str_in x (Mcs.add_unique l xs) = str_in x l || str_in x xs.
Proof.
  revert l. induction xs as [|y r IH]; intros l; simpl.
  - rewrite orb_false_r. reflexivity.
  - rewrite IH. destruct (str_in y l) eqn:Hy.
    + destruct (String.eqb x y) eqn:Hxy; simpl; [|reflexivity].
      apply String.eqb_eq in Hxy. subst y. rewrite Hy. reflexivity.
    + unfold str_in at 1. rewrite existsb_app. fold (str_in x l). simpl.
      rewrite orb_false_r, orb_assoc. reflexivity.
Qed.

(** A record of at most three columns makes [row[3]] raise [IndexError]:
    the errors of the records before it are kept, one read error is
    added, the records after it are not read, and the hours collected
    before it are the file's hours the expected buckets are compared with. *)
Theorem read_rows_short_record (full : string) (rows1 rest : list (list string))
  (row : list string) (fh : list string) (s : st)
  (Hlong : Forall (fun r => (3 < List.length r)%nat) rows1)
  (Hshort : (List.length row <= 3)%nat) :
  Mcs.read_rows full (rows1 ++ row :: rest) fh s =
  (Ret (Mcs.add_unique fh (map (fun r => nth 3 r EmptyString) rows1)),
   mkSt (errs s ++ map Mcs.metadata_msg (filter (fun r => negb (Mcs.search_metadata r)) rows1)
              ++ [Mcs.read_error_msg full "list index out of range"])
        true (dirs s) (files s) (copies s)).
Proof.
  revert fh s. induction rows1 as [|r rows1 IH]; intros fh s;
    cbn [app]; cbn [Mcs.read_rows].
  - assert (Hn : nth_error row 3 = None) by (apply nth_error_None; lia).
    rewrite Hn. reflexivity.
  - inversion Hlong as [|? ? Hr Hrest]; subst.
    destruct (nth_error r 3) as [h|] eqn:Hh.
    2: { apply nth_error_None in Hh. lia. }
    cbn [map Mcs.add_unique]. rewrite (nth_error_nth r 3 EmptyString Hh).
    cbn [filter]. unfold bind at 1.
    destruct (Mcs.search_metadata r); cbn [negb map]; unfold ret, handle_error;
      rewrite IH by exact Hrest; simpl.
    + destruct (str_in h fh); reflexivity.
    + rewrite <- !app_assoc. destruct (str_in h fh); reflexivity.
Qed.

Lemma read_rows_short_record_witness :
  (Forall (fun r => (3 < List.length r)%nat)
     [["a"; "b"; "c"; "00:00:00"; "ActionInProgress"; "NetworkZone"; "TemplateName"]] /\
   (List.length ["a"; "b"] <= 3)%nat) /\
  fst (Mcs.read_rows "f.txt"
         ([["a"; "b"; "c"; "00:00:00"; "ActionInProgress"; "NetworkZone"; "TemplateName"]]
          ++ [["a"; "b"]; ["a"; "b"; "c"; "01:00:00"]]) [] (st0 [] [])) = Ret ["00:00:00"].
Proof.
  assert (H1 : Forall (fun r => (3 < List.length r)%nat)
     [["a"; "b"; "c"; "00:00:00"; "ActionInProgress"; "NetworkZone"; "TemplateName"]])
    by (repeat constructor).
  assert (H2 : (List.length ["a"; "b"] <= 3)%nat) by (simpl; lia).
  split; [split; [exact H1|exact H2]|].
  rewrite (read_rows_short_record "f.txt" _ [["a"; "b"; "c"; "01:00:00"]] ["a"; "b"] []
             (st0 [] []) H1 H2).
  reflexivity.
Defined.

Lemma filter_all_false {A} (p : A -> bool) (l : list A) :
  (forall x, In x l -> p x = false) -> filter p l = [] /\ existsb p l = false.
Proof.
  induction l as [|x r IH]; intros H; simpl; [auto|].
  rewrite (H x (or_introl eq_refl)). apply IH. intros y Hy. apply H. right. exact Hy.
Qed.

Lemma read_rows_complete full rows fh s :
  Forall (fun r => (3 < List.length r)%nat /\ Mcs.search_metadata r = true) rows ->
  Mcs.read_rows full rows fh s =
  (Ret (Mcs.add_unique fh (map (fun r => nth 3 r EmptyString) rows)), s).
Proof.
  revert fh. induction rows as [|r rows IH]; intros fh Hrows; cbn [Mcs.read_rows];
    [reflexivity|].
  inversion Hrows as [|? ? [Hr Hm] Hrest]; subst.
  destruct (nth_error r 3) as [h|] eqn:Hh.
  2: { apply nth_error_None in Hh. lia. }
  cbn [map Mcs.add_unique]. rewrite (nth_error_nth r 3 EmptyString Hh), Hm.
  unfold bind, ret. rewrite IH by exact Hrest.
  destruct (str_in h fh); reflexivity.
Qed.

(** A provider whose directory and file exist, whose file is read to its
    end without an [IOError] or a [csv.Error], whose records all have a
    fourth column and all the metadata names, and whose fourth column
    holds every expected hour bucket, records no error at all. *)
Theorem complete_file_no_errors (E : Mcs.env) (fd : string) (ad un : bool)
  (process feed : string) (s : st) :
  let dir := join (join Mcs.COLLECTOR_LOGS process) feed in
  let full := join dir (fd ++ ".txt") in
  Mcs.path_exists E dir = true -> Mcs.is_file E full = true ->
  Mcs.csv_error E full = None ->
  Forall (fun r => (3 < List.length r)%nat /\ Mcs.search_metadata r = true)
         (Mcs.csv_rows E full) ->
  (forall h, In h (Mcs.comparison_hours ad un (Mcs.utc_hour E)) ->
     exists r, In r (Mcs.csv_rows E full) /\ nth 3 r EmptyString = h) ->
  Mcs.check_file E fd ad un process feed s = (Ret tt, s).
Proof.
  intros dir full Hdir Hfile Hce Hrows Hhours.
  assert (Hall : forallb (fun r => Nat.ltb 3 (List.length r)) (Mcs.csv_rows E full) = true).
  { apply forallb_forall. intros r Hr. rewrite Forall_forall in Hrows.
    apply Nat.ltb_lt. exact (proj1 (Hrows r Hr)). }
  unfold Mcs.check_file. fold dir. fold full. rewrite Hdir, Hfile.
  unfold bind at 1, ret at 1. unfold bind, Mcs.read_file. rewrite Hfile. unfold bind.
  rewrite read_rows_complete by exact Hrows. rewrite Hall, Hce. unfold ret. cbv beta iota.
  rewrite report_missing_spec.
  destruct (filter_all_false (fun hr => negb (str_in hr (Mcs.add_unique []
                    (map (fun r => nth 3 r EmptyString) (Mcs.csv_rows E full)))))
              (Mcs.comparison_hours ad un (Mcs.utc_hour E))) as [Hnil Hex].
  { intros h Hin. apply Hhours in Hin.
    destruct Hin as (r & Hr & Hn). rewrite add_unique_str_in.
    assert (Hs : str_in h (map (fun r => nth 3 r EmptyString) (Mcs.csv_rows E full)) = true).
    { apply str_in_spec. apply in_map_iff. exists r. auto. }
    rewrite Hs, orb_true_r. reflexivity. }
  rewrite Hnil, Hex. destruct s; simpl. rewrite app_nil_r, orb_false_r. reflexivity.
Qed.

Definition mcs_complete_row : list string :=
  ["2024-06-05"; "p1"; "vm1"; "00:00:00"; "ActionInProgress"; "NetworkZone"; "TemplateName"].

Definition mcs_env_complete : Mcs.env :=
  Mcs.mkEnv (inl ["p1_nova"]) (fun _ => true) (fun _ => true) (fun _ => [mcs_complete_row]) (fun _ => None)
            (fun _ => EmptyString) 0.

Lemma complete_file_no_errors_witness :
  Mcs.check_file mcs_env_complete "20240605" false false "nova_compute" "p1_nova" (st0 [] []) =
  (Ret tt, st0 [] []).
Proof.
  apply (complete_file_no_errors mcs_env_complete "20240605" false false "nova_compute" "p1_nova").
  - reflexivity.
  - reflexivity.
  - reflexivity.
  - cbn. constructor; [split; [cbn; repeat constructor | reflexivity] | constructor].
  - intros h Hin. vm_compute in Hin. destruct Hin as [<-|[]].
    exists mcs_complete_row. split; [left; reflexivity | reflexivity].
Defined.

(** ** [get_providers] of findMissingCSR.py *)

Module McsProviders.

(** A line of [providers.json] as [json.loads] returns it: an object (its
    members in order, with string values), or the text of the exception
    raised by a line that is not JSON. *)
Inductive json_line := JObject (members : list (string * string)) | JError (exc : string).

(** [obj[k]] on the dict [json.loads] builds, where the last of repeated
    keys wins. *)
Definition member (k : string) (o : list (string * string)) : option string :=
  match find (fun kv => String.eqb (fst kv) k) (rev o) with
  | Some (_, v) => Some v
  | None => None
  end.

(** The [for row in file_handle] loop: the provider names in order, or the
    text of the first exception ([KeyError] prints its key quoted). *)
Fixpoint provider_names (lines : list json_line) : list string + string :=
  match lines with
  | [] => inl []
  | JError exc :: _ => inr exc
  | JObject o :: r =>
      match member "provider_name" o with
      | None => inr "'provider_name'"
      | Some n =>
          match provider_names r with
          | inl ns => inl (n :: ns)
          | inr e => inr e
          end
      end
  end.

(** [get_providers()]: [src] is the content of the file, or the text of
    the exception of [open]; on an exception the function records it and
    falls off its end, returning [None]. *)
Definition get_providers (src : list json_line + string) : M (option (list string)) :=
  match (match src with inl lines => provider_names lines | inr e => inr e end) with
  | inl ps => ret (Some ps)
  | inr exc =>
      handle_error ("Error reading providers file " ++ Mcs.provider_file ++ " " ++ nl ++
                    "Exception: " ++ exc) ;;
      ret None
  end.

(** [providers = get_providers(); if providers is None: ... else: for ...]. *)
Definition check_all (E : Mcs.env) (src : list json_line + string) (full_date : string)
  (all_day up_to_now : bool) : M unit :=
  providers <- get_providers src ;;
  match providers with
  | None => handle_error ("No active MCS providers were found in " ++ Mcs.provider_file)
  | Some ps => Mcs.check_providers E full_date all_day up_to_now None ps
  end.

End McsProviders.

(** The hour checker's environment reading the providers file [src]. *)
Definition mcs_env_with (E : Mcs.env) (src : list McsProviders.json_line + string) : Mcs.env :=
  Mcs.mkEnv (match src with inl lines => McsProviders.provider_names lines | inr e => inr e end)
    (Mcs.path_exists E) (Mcs.is_file E) (Mcs.csv_rows E) (Mcs.csv_error E) (Mcs.open_error E) (Mcs.utc_hour E).

(** The provider loop does not read the provider list of the environment. *)
Lemma check_providers_env_with E src fd ad un ps :
  forall process s,
  Mcs.check_providers (mcs_env_with E src) fd ad un process ps s =
  Mcs.check_providers E fd ad un process ps s.
Proof.
  destruct E as [pv pe isf rows ce oe uh]. induction ps as [|p r IH]; intros process s; [reflexivity|].
  cbn [Mcs.check_providers]. unfold bind.
  change (Mcs.check_provider (mcs_env_with (Mcs.mkEnv pv pe isf rows ce oe uh) src) fd ad un process p s)
    with (Mcs.check_provider (Mcs.mkEnv pv pe isf rows ce oe uh) fd ad un process p s).
  destruct (Mcs.check_provider _ fd ad un process p s) as [[v|e] s']; [apply IH|reflexivity].
Qed.

(** The provider list of [Mcs.env] is what [get_providers] reads. *)
Lemma mcs_check_all_refines E src fd ad un s :
  McsProviders.check_all E src fd ad un s = Mcs.check_all (mcs_env_with E src) fd ad un s.
Proof.
  unfold McsProviders.check_all, McsProviders.get_providers, Mcs.check_all.
  change (Mcs.providers (mcs_env_with E src))
    with (match src with inl lines => McsProviders.provider_names lines | inr e => inr e end).
  destruct (match src with inl lines => McsProviders.provider_names lines | inr e => inr e end).
  - unfold bind, ret. symmetry. apply check_providers_env_with.
  - reflexivity.
Qed.

Lemma provider_names_app l1 l2 ns :
  McsProviders.provider_names l1 = inl ns ->
  McsProviders.provider_names (app l1 l2) =
  match McsProviders.provider_names l2 with
  | inl ns2 => inl (app ns ns2)
  | inr e => inr e
  end.
Proof.
  revert ns. induction l1 as [|[o|e] r IH]; intros ns H; simpl in *.
  - injection H as <-. destruct (McsProviders.provider_names l2); reflexivity.
  - destruct (McsProviders.member "provider_name" o) as [n|]; [|discriminate].
    destruct (McsProviders.provider_names r) as [ns'|] eqn:Hr; [|discriminate].
    injection H as <-. rewrite (IH ns' eq_refl).
    destruct (McsProviders.provider_names l2); reflexivity.
  - discriminate.
Qed.

(** One line of [providers.json] that is not JSON, or that has no
    [provider_name], discards every provider: when the lines before it
    are well formed, [main] records exactly the read error with that
    line's exception and "No active MCS providers were found", and checks
    no provider. An empty file instead yields no provider and no error. *)
Theorem bad_provider_line_discards_all (E : Mcs.env)
  (lines1 rest : list McsProviders.json_line) (bad : McsProviders.json_line)
  (ns : list string) (exc fd : string) (ad un : bool) (s : st) :
  McsProviders.check_all E (inl []) fd ad un s = (Ret tt, s) /\
  (McsProviders.provider_names lines1 = inl ns ->
   McsProviders.provider_names [bad] = inr exc ->
   McsProviders.check_all E (inl (app lines1 (bad :: rest))) fd ad un s =
   (Ret tt, mkSt (errs s ++ ["Error reading providers file " ++ Mcs.provider_file ++ " " ++ nl ++
                             "Exception: " ++ exc;
                             "No active MCS providers were found in " ++ Mcs.provider_file])
                 true (dirs s) (files s) (copies s))).
Proof.
  split; [reflexivity|]. intros H1 Hbad.
  unfold McsProviders.check_all, McsProviders.get_providers.
  rewrite (provider_names_app lines1 (bad :: rest) ns H1).
  assert (Hb : McsProviders.provider_names (bad :: rest) = inr exc).
  { destruct bad as [o|e]; simpl in *; [|exact Hbad].
    destruct (McsProviders.member "provider_name" o); [discriminate|exact Hbad]. }
  rewrite Hb. unfold bind, handle_error, ret; simpl. rewrite <- app_assoc. reflexivity.
Qed.

Lemma bad_provider_line_discards_all_witness :
  (McsProviders.provider_names [McsProviders.JObject [("provider_name", "p1_nova")]] = inl ["p1_nova"] /\
   McsProviders.provider_names [McsProviders.JObject [("name", "p2_nova")]] = inr "'provider_name'") /\
  List.length (errs (snd (McsProviders.check_all mcs_env_empty
     (inl (app [McsProviders.JObject [("provider_name", "p1_nova")]]
               [McsProviders.JObject [("name", "p2_nova")]]))
     "20240605" false false (st0 [] [])))) = 2%nat.
Proof.
  assert (H1 : McsProviders.provider_names [McsProviders.JObject [("provider_name", "p1_nova")]]
               = inl ["p1_nova"]) by reflexivity.
  assert (H2 : McsProviders.provider_names [McsProviders.JObject [("name", "p2_nova")]]
               = inr "'provider_name'") by reflexivity.
  split; [split; [exact H1|exact H2]|].
  rewrite (proj2 (bad_provider_line_discards_all mcs_env_empty _ [] _ _ _ "20240605" false false
                    (st0 [] [])) H1 H2).
  reflexivity.
Defined.

(** With an empty list of providers, a run of the hour checker with a
    valid date checks nothing: it records only the header line, sends no
    notification and exits with 0. *)
Theorem empty_providers_run_silent (E : Mcs.env) (hostname stamp : string) (a : Mcs.args)
  (fd : string) (ad un : bool)
  (Hp : Mcs.providers E = inl []) (Ha : Mcs.get_args a = inr (fd, ad, un)) :
  Mcs.run E hostname stamp a =
  mkOutcome [] 0 [Mcs.header fd hostname] (mkSt [Mcs.header fd hostname] false [] [] []).
Proof.
  unfold Mcs.run. rewrite Ha. unfold Mcs.main, Mcs.check_all. rewrite Hp. reflexivity.
Qed.

Lemma empty_providers_run_silent_witness :
  (Mcs.providers mcs_env_empty = inl [] /\
   Mcs.get_args (Mcs.mkArgs 2024 6 5 false true) = inr ("20240605", false, true)) /\
  code (Mcs.run mcs_env_empty "host" "20240605" (Mcs.mkArgs 2024 6 5 false true)) = 0.
Proof.
  assert (Hp : Mcs.providers mcs_env_empty = inl []) by reflexivity.
  assert (Ha : Mcs.get_args (Mcs.mkArgs 2024 6 5 false true) = inr ("20240605", false, true))
    by reflexivity.
  split; [split; [exact Hp|exact Ha]|].
  rewrite (empty_providers_run_silent mcs_env_empty "host" "20240605" _ _ _ _ Hp Ha).
  reflexivity.
Defined.

(** ** emailer.py *)

Module Emailer.

Definition sccm_home : string := "/opt/ibm/sccm/".
Definition binary_home : string := sccm_home ++ "bin/custom/".
Definition mail_list_file : string := binary_home ++ "mailList.json".
Definition smtp_server : string := "localhost".

(** An entry of the ["groups"] list of the distribution list: its ["name"]
    and ["members"], [None] when the key is missing. *)
Record group := mkGroup { g_name : option string; g_members : option (list string) }.

(** What [send_email] depends on:
    - [mail_list]: the ["groups"] of [mailList.json], or the text of the
      exception raised by [open], [json.load] or [["groups"]];
    - [smtp_error]: the exception [smtplib.SMTP(smtp_server)] raises, if any;
    - [send_error]: the exception of [sendmail] or [quit], if any. *)
Record env := mkEnv {
  mail_list : list group + string;
  smtp_error : option string;
  send_error : option string
}.

(** How [send_email] ends: the message handed to [sendmail], [sys.exit(1)]
    after printing an error, or an exception it does not catch. *)
Inductive result :=
| Sent (from : string) (to : list string) (subject body : string)
| Exit1 (printed : string)
| Uncaught (exc : string).

(** [for email_groups in mail_list["groups"]: if email_groups["name"] ==
    distribution_group: email_to = email_groups["members"]]; [email_to] is
    the local variable, unassigned while [None]. *)
Fixpoint select (distribution_group : string) (gs : list group)
  (email_to : option (list string)) : option (list string) + string :=
  match gs with
  | [] => inl email_to
  | g :: r =>
      match g_name g with
      | None => inr "'name'"
      | Some n =>
          if String.eqb n distribution_group then
            match g_members g with
            | None => inr "'members'"
            | Some ms => select distribution_group r (Some ms)
            end
          else select distribution_group r email_to
      end
  end.

Definition send_email (E : env) (distribution_group email_subject email_from results_message : string)
  : result :=
  match (match mail_list E with
         | inl gs => select distribution_group gs None
         | inr e => inr e
         end) with
  | inr exc => Exit1 ("ERROR: Cannot read email recipients list. " ++ exc)
  | inl email_to =>
      match smtp_error E with
      | Some e => Uncaught e
      | None =>
          match email_to with
          | None =>
              Exit1 ("ERROR: Unable to send notification email. " ++
                     "local variable 'email_to' referenced before assignment")
          | Some to =>
              match send_error E with
              | Some e => Exit1 ("ERROR: Unable to send notification email. " ++ e)
              | None => Sent email_from to email_subject results_message
              end
          end
      end
  end.

End Emailer.

(** The members of the last group of the list named [dg], if one is. *)
Definition last_group_members (dg : string) (gs : list Emailer.group) : option (option (list string)) :=
  match find (fun g => match Emailer.g_name g with Some n => String.eqb n dg | None => false end)
             (rev gs) with
  | Some g => Some (Emailer.g_members g)
  | None => None
  end.

Lemma find_app_last {A} (p : A -> bool) (l : list A) (x : A) :
  find p (l ++ [x]) = match find p l with Some y => Some y | None => if p x then Some x else None end.
Proof.
  induction l as [|y r IH]; simpl; [reflexivity|].
  destruct (p y); [reflexivity|exact IH].
Qed.

Lemma select_last dg gs acc :
  Forall (fun g => Emailer.g_name g <> None) gs ->
  Forall (fun g => Emailer.g_name g = Some dg -> Emailer.g_members g <> None) gs ->
  Emailer.select dg gs acc =
  inl (match last_group_members dg gs with Some (Some to) => Some to | _ => acc end).
Proof.
  unfold last_group_members.
  revert acc. induction gs as [|g r IH]; intros acc Hn Hm; [reflexivity|].
  inversion Hn as [|? ? Hng Hnr]; inversion Hm as [|? ? Hmg Hmr]; subst.
  simpl. rewrite find_app_last.
  destruct (Emailer.g_name g) as [n|] eqn:Hg; [|congruence].
  destruct (String.eqb n dg) eqn:Hndg.
  - apply String.eqb_eq in Hndg. subst n.
    destruct (Emailer.g_members g) as [ms|] eqn:Hms; [|exfalso; apply Hmg; reflexivity].
    rewrite (IH (Some ms) Hnr Hmr). clear IH.
    destruct (find _ (rev r)) as [g'|] eqn:Hf; [|rewrite Hms; reflexivity].
    apply find_some in Hf. destruct Hf as [Hin Hp]. apply in_rev in Hin.
    destruct (Emailer.g_name g') as [n'|] eqn:Hg'; [|discriminate].
    apply String.eqb_eq in Hp. subst n'.
    rewrite Forall_forall in Hmr. specialize (Hmr g' Hin Hg').
    destruct (Emailer.g_members g'); [reflexivity|congruence].
  - rewrite (IH acc Hnr Hmr). clear IH. cbn beta iota.
    destruct (find _ (rev r)); reflexivity.
Qed.

(** When the distribution list reads, every group has a name, the groups
    named [dg] have members, and the SMTP server takes the message,
    [send_email] sends it to the members of the LAST group named [dg]
    (a later group of the same name overrides an earlier one); when no
    group is named [dg], it opens the SMTP connection, prints an error and
    exits with 1 without sending anything. *)
Theorem send_email_last_group (E : Emailer.env) (dg subj from body : string)
  (gs : list Emailer.group)
  (Hgs : Emailer.mail_list E = inl gs)
  (Hnames : Forall (fun g => Emailer.g_name g <> None) gs)
  (Hmem : Forall (fun g => Emailer.g_name g = Some dg -> Emailer.g_members g <> None) gs)
  (Hconn : Emailer.smtp_error E = None) (Hsend : Emailer.send_error E = None) :
  Emailer.send_email E dg subj from body =
  match last_group_members dg gs with
  | Some (Some to) => Emailer.Sent from to subj body
  | _ => Emailer.Exit1 ("ERROR: Unable to send notification email. " ++
                        "local variable 'email_to' referenced before assignment")
  end.
Proof.
  unfold Emailer.send_email. rewrite Hgs, (select_last dg gs None Hnames Hmem), Hconn.
  destruct (last_group_members dg gs) as [[to|]|]; [rewrite Hsend| |]; reflexivity.
Qed.

Definition mailer_env : Emailer.env :=
  Emailer.mkEnv
    (inl [Emailer.mkGroup (Some "CSR_checker") (Some ["a@x"]);
          Emailer.mkGroup (Some "MCS_checker") (Some ["b@x"]);
          Emailer.mkGroup (Some "CSR_checker") (Some ["c@x"; "d@x"])])
    None None.

Lemma send_email_last_group_witness :
  Emailer.send_email mailer_env "CSR_checker" "subject" "SCCM@host" "body" =
  Emailer.Sent "SCCM@host" ["c@x"; "d@x"] "subject" "body".
Proof.
  exact (send_email_last_group mailer_env "CSR_checker" "subject" "SCCM@host" "body" _ eq_refl
           ltac:(repeat constructor; discriminate)
           ltac:(repeat constructor; intros _; discriminate)
           eq_refl eq_refl).
Defined.
